(** * EZ-Api/exporter: the record transformation engine

    A shallow embedding of the exporter of [internal/source/newapi]
    (channels, tokens, users and abilities of a New API database turned into
    providers, masters, keys and bindings of the intermediate schema of
    [internal/schema]) and the properties of it that the specification
    states.

    Conventions of the embedding.
    - A Go [string] is a Rocq [string]: a sequence of bytes ([ascii]).
    - Go's [int], [int64] and [uint] are [Z]; the platform is a 64-bit one,
      and a conversion that can change the number is written out
      ([int_of_uint]).
    - A slice is a [list]; the nil slice and the empty slice are both [[]].
    - A nilable pointer field ([*string], [*uint], [*int64], [*time.Time])
      is an [option].
    - The exporter mutates [e.result]; every method of the embedding takes
      the accumulator and returns the new one (a state monad [M]). *)

From Stdlib Require Import ZArith String Ascii List Lia DecimalString.
From Stdlib Require DecimalZ.
From stdpp Require Import base list gmap strings.

Local Open Scope string_scope.
Local Open Scope Z_scope.

(** ** The parts of the Go runtime the exporter calls *)

(** *** Integers *)

Definition two63 : Z := 2 ^ 63.
Definition two64 : Z := 2 ^ 64.

(** [int(u)] for [u : uint]: the same 64 bits read as a signed number. *)
Definition int_of_uint (u : Z) : Z :=
  let r := u mod two64 in
  if r <? two63 then r else r - two64.

(** [int(x)] for [x : int64] and [int64(x)] for [x : int] keep the number on
    a 64-bit platform. *)
Definition int_of_int64 (x : Z) : Z := x.
Definition int64_of_int (x : Z) : Z := x.

(** The verb [%d]. *)
Definition itoa (z : Z) : string := NilEmpty.string_of_int (Z.to_int z).

(** *** Byte strings *)

Definition byte (c : ascii) : Z := Z.of_N (N_of_ascii c).

Definition len (s : string) : Z := Z.of_nat (String.length s).

(** [s[i]]; the exporter's callees never index out of range. *)
Definition at_ (s : string) (i : Z) : Z :=
  match String.get (Z.to_nat i) s with
  | Some c => byte c
  | None => 0
  end.

(** [s[i:j]] and [s[i:]]. *)
Definition slice (s : string) (i j : Z) : string :=
  substring (Z.to_nat i) (Z.to_nat (j - i)) s.

Fixpoint skip (n : nat) (s : string) : string :=
  match n, s with
  | O, _ => s
  | S _, EmptyString => EmptyString
  | S k, String _ t => skip k t
  end.

Definition slice_from (s : string) (i : Z) : string := skip (Z.to_nat i) s.

(** *** Package unicode/utf8 *)

Module utf8.

Definition RuneError : Z := 65533.
Definition RuneSelf : Z := 128.
Definition UTFMax : Z := 4.

Definition locb : Z := 128.
Definition hicb : Z := 191.
Definition maskx : Z := 63.
Definition mask2 : Z := 31.
Definition mask3 : Z := 15.
Definition mask4 : Z := 7.

(** Entries of the table [first]: [as_] an ASCII byte, [xx] an invalid
    first byte, the others a size in the low three bits and an index into
    [acceptRanges] in the high four. *)
Definition xx : Z := 241.
Definition as_ : Z := 240.
Definition s1 : Z := 2.
Definition s2 : Z := 19.
Definition s3 : Z := 3.
Definition s4 : Z := 35.
Definition s5 : Z := 52.
Definition s6 : Z := 4.
Definition s7 : Z := 68.

Definition first (b : Z) : Z :=
  if b <? 128 then as_
  else if b <? 194 then xx
  else if b <? 224 then s1
  else if b =? 224 then s2
  else if b <? 237 then s3
  else if b =? 237 then s4
  else if b <? 240 then s3
  else if b =? 240 then s5
  else if b <? 244 then s6
  else if b =? 244 then s7
  else xx.

Definition acceptRanges (i : Z) : Z * Z :=
  match i with
  | 0 => (locb, hicb)
  | 1 => (160, hicb)
  | 2 => (locb, 159)
  | 3 => (144, hicb)
  | 4 => (locb, 143)
  | _ => (0, 0)
  end.

(** [DecodeRuneInString]: the first rune of [s] and its width in bytes;
    [(RuneError, 0)] on the empty string, [(RuneError, 1)] on an invalid
    encoding. *)
Definition DecodeRuneInString (s : string) : Z * Z :=
  match s with
  | EmptyString => (RuneError, 0)
  | String c0 t0 =>
    let b0 := byte c0 in
    let x := first b0 in
    if as_ <=? x then ((if x =? xx then RuneError else b0), 1)
    else
      let sz := Z.land x 7 in
      let accept := acceptRanges (Z.shiftr x 4) in
      if len s <? sz then (RuneError, 1)
      else match t0 with
      | EmptyString => (RuneError, 1)
      | String c1 t1 =>
        let b1 := byte c1 in
        if (b1 <? fst accept) || (snd accept <? b1) then (RuneError, 1)
        else if sz <=? 2
        then (Z.lor (Z.shiftl (Z.land b0 mask2) 6) (Z.land b1 maskx), 2)
        else match t1 with
        | EmptyString => (RuneError, 1)
        | String c2 t2 =>
          let b2 := byte c2 in
          if (b2 <? locb) || (hicb <? b2) then (RuneError, 1)
          else if sz <=? 3
          then (Z.lor (Z.lor (Z.shiftl (Z.land b0 mask3) 12)
                             (Z.shiftl (Z.land b1 maskx) 6))
                      (Z.land b2 maskx), 3)
          else match t2 with
          | EmptyString => (RuneError, 1)
          | String c3 _ =>
            let b3 := byte c3 in
            if (b3 <? locb) || (hicb <? b3) then (RuneError, 1)
            else (Z.lor (Z.lor (Z.lor (Z.shiftl (Z.land b0 mask4) 18)
                                      (Z.shiftl (Z.land b1 maskx) 12))
                               (Z.shiftl (Z.land b2 maskx) 6))
                        (Z.land b3 maskx), 4)
          end
        end
      end
  end.

(** [RuneStart]: not a continuation byte. *)
Definition RuneStart (b : Z) : bool := negb (Z.land b 192 =? 128).

(** The loop [for start--; start >= lim; start-- { if RuneStart(s[start]) {
    break } }] of [DecodeLastRuneInString]; it runs at most [UTFMax - 1]
    times. *)
Fixpoint scanBack (fuel : nat) (s : string) (start lim : Z) : Z :=
  match fuel with
  | O => start
  | S k =>
    if start <? lim then start
    else if RuneStart (at_ s start) then start
    else scanBack k s (start - 1) lim
  end.

(** [DecodeLastRuneInString]: the last rune of [s] and its width. *)
Definition DecodeLastRuneInString (s : string) : Z * Z :=
  let end_ := len s in
  if end_ =? 0 then (RuneError, 0)
  else
    let start := end_ - 1 in
    let r := at_ s start in
    if r <? RuneSelf then (r, 1)
    else
      let lim := Z.max 0 (end_ - UTFMax) in
      let start := scanBack 4 s (start - 1) lim in
      let start := Z.max 0 start in
      let '(r, size) := DecodeRuneInString (slice s start end_) in
      if start + size =? end_ then (r, size) else (RuneError, 1).

End utf8.

(** *** Package unicode *)

Module unicode.

(** [IsSpace]: the Latin-1 cases, then the table [White_Space]. *)
Definition IsSpace (r : Z) : bool :=
  if (0 <=? r) && (r <=? 255)
  then (r =? 9) || (r =? 10) || (r =? 11) || (r =? 12) || (r =? 13)
       || (r =? 32) || (r =? 133) || (r =? 160)
  else (r =? 5760) || ((8192 <=? r) && (r <=? 8202))
       || (r =? 8232) || (r =? 8233) || (r =? 8239) || (r =? 8287)
       || (r =? 12288).

End unicode.

(** *** Package strings *)

Module strings.

(** The table [asciiSpace]. *)
Definition asciiSpace (b : Z) : bool :=
  (b =? 9) || (b =? 10) || (b =? 11) || (b =? 12) || (b =? 13) || (b =? 32).

(** [indexFunc]: the byte index of the first rune [r] of [s] with
    [f r = truth], or [-1]. The loop [for i, r := range s] decodes one rune
    per step; [i] is the index of the rune in the whole string and [s] what
    is left of it. *)
Fixpoint indexFunc_loop (fuel : nat) (s : string) (i : Z)
  (f : Z -> bool) (truth : bool) : Z :=
  match fuel with
  | O => -1
  | S k =>
    match s with
    | EmptyString => -1
    | String _ _ =>
      let '(r, size) := utf8.DecodeRuneInString s in
      if Bool.eqb (f r) truth then i
      else indexFunc_loop k (slice_from s size) (i + size) f truth
    end
  end.

Definition indexFunc (s : string) (f : Z -> bool) (truth : bool) : Z :=
  indexFunc_loop (String.length s) s 0 f truth.

(** [lastIndexFunc]: the same from the end; the loop
    [for i := len(s); i > 0; ]. *)
Fixpoint lastIndexFunc_loop (fuel : nat) (s : string) (i : Z)
  (f : Z -> bool) (truth : bool) : Z :=
  match fuel with
  | O => -1
  | S k =>
    if 0 <? i then
      let '(r, size) := utf8.DecodeLastRuneInString (slice s 0 i) in
      let i := i - size in
      if Bool.eqb (f r) truth then i
      else lastIndexFunc_loop k s i f truth
    else -1
  end.

Definition lastIndexFunc (s : string) (f : Z -> bool) (truth : bool) : Z :=
  lastIndexFunc_loop (String.length s) s (len s) f truth.

Definition TrimLeftFunc (s : string) (f : Z -> bool) : string :=
  let i := indexFunc s f false in
  if i =? -1 then "" else slice_from s i.

Definition TrimRightFunc (s : string) (f : Z -> bool) : string :=
  let i := lastIndexFunc s f false in
  let i :=
    if (0 <=? i) && (utf8.RuneSelf <=? at_ s i)
    then i + snd (utf8.DecodeRuneInString (slice_from s i))
    else i + 1 in
  slice s 0 i.

Definition TrimFunc (s : string) (f : Z -> bool) : string :=
  TrimRightFunc (TrimLeftFunc s f) f.

(** The first loop of [TrimSpace]: the leading ASCII white space is
    dropped; what is returned is [s[start:]]. *)
Fixpoint trimStart (s : string) : string :=
  match s with
  | EmptyString => EmptyString
  | String c t =>
    if byte c <? utf8.RuneSelf
    then if asciiSpace (byte c) then trimStart t else s
    else s
  end.

(** The second loop of [TrimSpace], on [s = s[start:]]:
    [for ; stop > start; stop--]. *)
Fixpoint trimStop (s : string) (stop : nat) : string :=
  match stop with
  | O => ""
  | S k =>
    let c := at_ s (Z.of_nat k) in
    if utf8.RuneSelf <=? c
    then TrimRightFunc (slice s 0 (Z.of_nat stop)) unicode.IsSpace
    else if asciiSpace c then trimStop s k
    else slice s 0 (Z.of_nat stop)
  end.

(** [TrimSpace]: the fast path on ASCII bytes, and [TrimFunc] with
    [unicode.IsSpace] from the first byte that is not ASCII. *)
Definition TrimSpace (s : string) : string :=
  let rest := trimStart s in
  match rest with
  | EmptyString => ""
  | String c _ =>
    if utf8.RuneSelf <=? byte c
    then TrimFunc rest unicode.IsSpace
    else trimStop rest (String.length rest)
  end.

(** [Split(s, sep)] for a separator of one byte, which is what the exporter
    passes (a newline or a comma): the pieces between the separators, one
    more than there are separators. *)
Fixpoint Split (s : string) (sep : ascii) : list string :=
  match s with
  | EmptyString => [""]
  | String c t =>
    if Ascii.eqb c sep then "" :: Split t sep
    else match Split t sep with
         | h :: r => String c h :: r
         | [] => [String c ""]
         end
  end.

(** [Join(elems, sep)]. *)
Fixpoint Join (elems : list string) (sep : string) : string :=
  match elems with
  | [] => ""
  | [e] => e
  | e :: r => e ++ sep ++ Join r sep
  end.

End strings.

(** *** Errors and [fmt] *)

(** An [error] value: its message, and the error it wraps if it was made by
    [fmt.Errorf] with [%w]. *)
Inductive error : Type :=
| errorString (msg : string)
| wrapError (msg : string) (err : error).

Definition Error (e : error) : string :=
  match e with
  | errorString m => m
  | wrapError m _ => m
  end.

Definition Unwrap (e : error) : option error :=
  match e with
  | errorString _ => None
  | wrapError _ e' => Some e'
  end.

(** [fmt.Errorf(prefix + ": %w", err)]. *)
Definition Errorf_w (prefix : string) (err : error) : error :=
  wrapError (prefix ++ ": " ++ Error err) err.

(** The verb [%v] on a [[]string]. *)
Definition fmt_strings (l : list string) : string :=
  "[" ++ strings.Join l " " ++ "]".

(** *** Package time *)

(** An instant: [time.Unix(sec, nsec)]. *)
Inductive Time : Type :=
| Unix (sec nsec : Z).

Definition newline : ascii := "010"%char.
Definition comma : ascii := ","%char.


(** ** Package schema: the intermediate format *)

Module Provider.
Record t : Type := mk {
  OriginalID : Z;
  Name : string;
  Type_ : string;
  BaseURL : string;
  APIKey : string;
  Models : list string;
  PrimaryGroup : string;
  AllGroups : list string;
  Weight : Z;
  Priority : Z;
  Status : string;
  AutoBan : bool;
  IsMultiKey : bool;
  MultiKeyIndex : Z;
  OriginalName : string;
  Original : option string
}.

(** The assignments [p.MultiKeyIndex = ...] and [p.OriginalName = ...]. *)
Definition set_MultiKeyIndex (p : t) (v : Z) : t :=
  mk (OriginalID p) (Name p) (Type_ p) (BaseURL p) (APIKey p) (Models p)
     (PrimaryGroup p) (AllGroups p) (Weight p) (Priority p) (Status p)
     (AutoBan p) (IsMultiKey p) v (OriginalName p) (Original p).

Definition set_OriginalName (p : t) (v : string) : t :=
  mk (OriginalID p) (Name p) (Type_ p) (BaseURL p) (APIKey p) (Models p)
     (PrimaryGroup p) (AllGroups p) (Weight p) (Priority p) (Status p)
     (AutoBan p) (IsMultiKey p) (MultiKeyIndex p) v (Original p).
End Provider.

Module Master.
Record t : Type := mk {
  Name : string;
  Group : string;
  Namespaces : list string;
  DefaultNamespace : string;
  MaxChildKeys : Z;
  GlobalQPS : Z;
  Status : string;
  SourceUserID : Z;
  SourceEmail : string
}.
End Master.

Module Key.
Record t : Type := mk {
  MasterRef : string;
  OriginalToken : string;
  Group : string;
  Status : string;
  Scopes : list string;
  Namespaces : list string;
  ModelLimitsEnabled : bool;
  ModelLimits : list string;
  ExpiresAt : option Time;
  AllowIPs : list string;
  QuotaLimit : option Z;
  QuotaUsed : option Z;
  UnlimitedQuota : bool;
  OriginalID : Z;
  TokenPlaintextAvailable : bool
}.

Definition set_ModelLimits (k : t) (v : list string) : t :=
  mk (MasterRef k) (OriginalToken k) (Group k) (Status k) (Scopes k)
     (Namespaces k) (ModelLimitsEnabled k) v (ExpiresAt k) (AllowIPs k)
     (QuotaLimit k) (QuotaUsed k) (UnlimitedQuota k) (OriginalID k)
     (TokenPlaintextAvailable k).

Definition set_ExpiresAt (k : t) (v : option Time) : t :=
  mk (MasterRef k) (OriginalToken k) (Group k) (Status k) (Scopes k)
     (Namespaces k) (ModelLimitsEnabled k) (ModelLimits k) v (AllowIPs k)
     (QuotaLimit k) (QuotaUsed k) (UnlimitedQuota k) (OriginalID k)
     (TokenPlaintextAvailable k).

Definition set_AllowIPs (k : t) (v : list string) : t :=
  mk (MasterRef k) (OriginalToken k) (Group k) (Status k) (Scopes k)
     (Namespaces k) (ModelLimitsEnabled k) (ModelLimits k) (ExpiresAt k) v
     (QuotaLimit k) (QuotaUsed k) (UnlimitedQuota k) (OriginalID k)
     (TokenPlaintextAvailable k).

Definition set_QuotaLimit (k : t) (v : option Z) : t :=
  mk (MasterRef k) (OriginalToken k) (Group k) (Status k) (Scopes k)
     (Namespaces k) (ModelLimitsEnabled k) (ModelLimits k) (ExpiresAt k)
     (AllowIPs k) v (QuotaUsed k) (UnlimitedQuota k) (OriginalID k)
     (TokenPlaintextAvailable k).

Definition set_QuotaUsed (k : t) (v : option Z) : t :=
  mk (MasterRef k) (OriginalToken k) (Group k) (Status k) (Scopes k)
     (Namespaces k) (ModelLimitsEnabled k) (ModelLimits k) (ExpiresAt k)
     (AllowIPs k) (QuotaLimit k) v (UnlimitedQuota k) (OriginalID k)
     (TokenPlaintextAvailable k).
End Key.

Module Binding.
Record t : Type := mk {
  Namespace : string;
  RouteGroup : string;
  Model : string;
  Status : string
}.
End Binding.

Module Source.
Record t : Type := mk {
  Type_ : string;
  Version : string;
  ExportedAt : Time
}.
End Source.

Module Data.
Record t : Type := mk {
  Providers : list Provider.t;
  Masters : list Master.t;
  Keys : list Key.t;
  Bindings : list Binding.t
}.
End Data.

Module ExportResult.
Record t : Type := mk {
  Version : string;
  Source : Source.t;
  Data : Data.t;
  Warnings : list string
}.
End ExportResult.

Module schema.

(** [NewExportResult]; [now] is what [time.Now()] returns. *)
Definition NewExportResult (now : Time) : ExportResult.t :=
  ExportResult.mk "1.0.0" (Source.mk "newapi" "unknown" now)
    (Data.mk [] [] [] []) [].

Definition AddWarning (r : ExportResult.t) (msg : string) : ExportResult.t :=
  ExportResult.mk (ExportResult.Version r) (ExportResult.Source r)
    (ExportResult.Data r) (ExportResult.Warnings r ++ [msg]).

Definition AddProvider (r : ExportResult.t) (p : Provider.t)
  : ExportResult.t :=
  let d := ExportResult.Data r in
  ExportResult.mk (ExportResult.Version r) (ExportResult.Source r)
    (Data.mk (Data.Providers d ++ [p]) (Data.Masters d) (Data.Keys d)
       (Data.Bindings d))
    (ExportResult.Warnings r).

Definition AddMaster (r : ExportResult.t) (m : Master.t) : ExportResult.t :=
  let d := ExportResult.Data r in
  ExportResult.mk (ExportResult.Version r) (ExportResult.Source r)
    (Data.mk (Data.Providers d) (Data.Masters d ++ [m]) (Data.Keys d)
       (Data.Bindings d))
    (ExportResult.Warnings r).

Definition AddKey (r : ExportResult.t) (k : Key.t) : ExportResult.t :=
  let d := ExportResult.Data r in
  ExportResult.mk (ExportResult.Version r) (ExportResult.Source r)
    (Data.mk (Data.Providers d) (Data.Masters d) (Data.Keys d ++ [k])
       (Data.Bindings d))
    (ExportResult.Warnings r).

Definition AddBinding (r : ExportResult.t) (b : Binding.t)
  : ExportResult.t :=
  let d := ExportResult.Data r in
  ExportResult.mk (ExportResult.Version r) (ExportResult.Source r)
    (Data.mk (Data.Providers d) (Data.Masters d) (Data.Keys d)
       (Data.Bindings d ++ [b]))
    (ExportResult.Warnings r).

End schema.

(** ** Package newapi: the tables of the source database *)

(** A [float64] column is carried as its 64 bits; the exporter never
    computes on it. *)
Definition float64 : Type := Z.

Module ChannelInfo.
Record t : Type := mk {
  IsMultiKey : bool;
  MultiKeySize : Z;
  MultiKeyStatusList : gmap Z Z;
  MultiKeyDisabledReason : gmap Z string;
  MultiKeyDisabledTime : gmap Z Z;
  MultiKeyPollingIndex : Z;
  MultiKeyMode : string
}.
End ChannelInfo.

Module Channel.
Record t : Type := mk {
  ID : Z;
  Type_ : Z;
  Key : string;
  OpenAIOrganization : option string;
  TestModel : option string;
  Status : Z;
  Name : string;
  Weight : option Z;
  CreatedTime : Z;
  TestTime : Z;
  ResponseTime : Z;
  BaseURL : option string;
  Other : string;
  Balance : float64;
  BalanceUpdatedTime : Z;
  Models : string;
  Group : string;
  UsedQuota : Z;
  ModelMapping : option string;
  StatusCodeMapping : option string;
  Priority : option Z;
  AutoBan : option Z;
  OtherInfo : string;
  Tag : option string;
  Setting : option string;
  ParamOverride : option string;
  HeaderOverride : option string;
  Remark : option string;
  ChannelInfo : option ChannelInfo.t;
  OtherSettings : string
}.
End Channel.

Module Token.
Record t : Type := mk {
  ID : Z;
  UserID : Z;
  Key : string;
  Status : Z;
  Name : string;
  CreatedTime : Z;
  AccessedTime : Z;
  ExpiredTime : Z;
  RemainQuota : Z;
  UnlimitedQuota : bool;
  ModelLimitsEnabled : bool;
  ModelLimits : string;
  AllowIPs : option string;
  UsedQuota : Z;
  Group : string;
  CrossGroupRetry : bool;
  DeletedAt : option Time
}.
End Token.

Module User.
Record t : Type := mk {
  ID : Z;
  Username : string;
  Password : string;
  DisplayName : string;
  Role : Z;
  Status : Z;
  Email : string;
  GitHubID : string;
  DiscordID : string;
  OidcID : string;
  WeChatID : string;
  TelegramID : string;
  AccessToken : option string;
  Quota : Z;
  UsedQuota : Z;
  RequestCount : Z;
  Group : string;
  AffCode : string;
  AffCount : Z;
  AffQuota : Z;
  AffHistoryQuota : Z;
  InviterID : Z;
  DeletedAt : option Time;
  LinuxDOID : string;
  Setting : string;
  Remark : string;
  StripeCustomer : string
}.
End User.

Module Ability.
Record t : Type := mk {
  Group : string;
  Model : string;
  ChannelID : Z;
  Enabled : bool;
  Priority : option Z;
  Weight : Z;
  Tag : option string
}.
End Ability.

(** [TimestampToTime]: no instant for the timestamps [-1] and [0]. *)
Definition TimestampToTime (ts : Z) : option Time :=
  if (ts =? -1) || (ts =? 0) then None
  else Some (Unix ts 0).

(** ** Package newapi: the enumerations *)

Definition ChannelTypeUnknown : Z := 0.
Definition ChannelTypeOpenAI : Z := 1.
Definition ChannelTypeMidjourney : Z := 2.
Definition ChannelTypeAzure : Z := 3.
Definition ChannelTypeOllama : Z := 4.
Definition ChannelTypeMidjourneyPlus : Z := 5.
Definition ChannelTypeOpenAIMax : Z := 6.
Definition ChannelTypeOhMyGPT : Z := 7.
Definition ChannelTypeCustom : Z := 8.
Definition ChannelTypeAILS : Z := 9.
Definition ChannelTypeAIProxy : Z := 10.
Definition ChannelTypePaLM : Z := 11.
Definition ChannelTypeAPI2GPT : Z := 12.
Definition ChannelTypeAIGC2D : Z := 13.
Definition ChannelTypeAnthropic : Z := 14.
Definition ChannelTypeBaidu : Z := 15.
Definition ChannelTypeZhipu : Z := 16.
Definition ChannelTypeAli : Z := 17.
Definition ChannelTypeXunfei : Z := 18.
Definition ChannelType360 : Z := 19.
Definition ChannelTypeOpenRouter : Z := 20.
Definition ChannelTypeAIProxyLibrary : Z := 21.
Definition ChannelTypeFastGPT : Z := 22.
Definition ChannelTypeTencent : Z := 23.
Definition ChannelTypeGemini : Z := 24.
Definition ChannelTypeMoonshot : Z := 25.
Definition ChannelTypeZhipuV4 : Z := 26.
Definition ChannelTypePerplexity : Z := 27.
Definition ChannelTypeLingYiWanWu : Z := 31.
Definition ChannelTypeAws : Z := 33.
Definition ChannelTypeCohere : Z := 34.
Definition ChannelTypeMiniMax : Z := 35.
Definition ChannelTypeSunoAPI : Z := 36.
Definition ChannelTypeDify : Z := 37.
Definition ChannelTypeJina : Z := 38.
Definition ChannelTypeCloudflare : Z := 39.
Definition ChannelTypeSiliconFlow : Z := 40.
Definition ChannelTypeVertexAI : Z := 41.
Definition ChannelTypeMistral : Z := 42.
Definition ChannelTypeDeepSeek : Z := 43.
Definition ChannelTypeMokaAI : Z := 44.
Definition ChannelTypeVolcEngine : Z := 45.
Definition ChannelTypeBaiduV2 : Z := 46.
Definition ChannelTypeXinference : Z := 47.
Definition ChannelTypeXai : Z := 48.
Definition ChannelTypeCoze : Z := 49.
Definition ChannelTypeKling : Z := 50.
Definition ChannelTypeJimeng : Z := 51.
Definition ChannelTypeVidu : Z := 52.
Definition ChannelTypeSubmodel : Z := 53.
Definition ChannelTypeDoubaoVideo : Z := 54.
Definition ChannelTypeSora : Z := 55.
Definition ChannelTypeReplicate : Z := 56.

(** [channelTypeMapping]: the provider type of each known channel type. *)
Definition channelTypeMapping : gmap Z string :=
  list_to_map [
    (ChannelTypeUnknown, "custom");
    (ChannelTypeOpenAI, "openai");
    (ChannelTypeMidjourney, "midjourney");
    (ChannelTypeAzure, "azure");
    (ChannelTypeOllama, "ollama");
    (ChannelTypeMidjourneyPlus, "midjourney");
    (ChannelTypeOpenAIMax, "openai");
    (ChannelTypeOhMyGPT, "openai");
    (ChannelTypeCustom, "custom");
    (ChannelTypeAILS, "openai");
    (ChannelTypeAIProxy, "openai");
    (ChannelTypePaLM, "palm");
    (ChannelTypeAPI2GPT, "openai");
    (ChannelTypeAIGC2D, "openai");
    (ChannelTypeAnthropic, "anthropic");
    (ChannelTypeBaidu, "baidu");
    (ChannelTypeZhipu, "zhipu");
    (ChannelTypeAli, "ali");
    (ChannelTypeXunfei, "xunfei");
    (ChannelType360, "360");
    (ChannelTypeOpenRouter, "openrouter");
    (ChannelTypeAIProxyLibrary, "openai");
    (ChannelTypeFastGPT, "openai");
    (ChannelTypeTencent, "tencent");
    (ChannelTypeGemini, "gemini");
    (ChannelTypeMoonshot, "moonshot");
    (ChannelTypeZhipuV4, "zhipu");
    (ChannelTypePerplexity, "perplexity");
    (ChannelTypeLingYiWanWu, "lingyiwanwu");
    (ChannelTypeAws, "aws");
    (ChannelTypeCohere, "cohere");
    (ChannelTypeMiniMax, "minimax");
    (ChannelTypeSunoAPI, "suno");
    (ChannelTypeDify, "dify");
    (ChannelTypeJina, "jina");
    (ChannelTypeCloudflare, "cloudflare");
    (ChannelTypeSiliconFlow, "siliconflow");
    (ChannelTypeVertexAI, "vertex");
    (ChannelTypeMistral, "mistral");
    (ChannelTypeDeepSeek, "deepseek");
    (ChannelTypeMokaAI, "mokaai");
    (ChannelTypeVolcEngine, "volcengine");
    (ChannelTypeBaiduV2, "baidu");
    (ChannelTypeXinference, "xinference");
    (ChannelTypeXai, "xai");
    (ChannelTypeCoze, "coze");
    (ChannelTypeKling, "kling");
    (ChannelTypeJimeng, "jimeng");
    (ChannelTypeVidu, "vidu");
    (ChannelTypeSubmodel, "submodel");
    (ChannelTypeDoubaoVideo, "doubao");
    (ChannelTypeSora, "openai");
    (ChannelTypeReplicate, "replicate")
  ].

(** [ToProviderType]: [("custom", false)] if the type is unknown. *)
Definition ToProviderType (t : Z) : string * bool :=
  match channelTypeMapping !! t with
  | Some providerType => (providerType, true)
  | None => ("custom", false)
  end.

Definition MapChannelType (typeID : Z) : string * bool :=
  ToProviderType typeID.

Definition UserStatusEnabled : Z := 1.
Definition UserStatusDisabled : Z := 2.

Definition UserStatus_ToEzAPIStatus (s : Z) : string :=
  if s =? UserStatusEnabled then "active"
  else if s =? UserStatusDisabled then "suspended"
  else "suspended".

Definition TokenStatusEnabled : Z := 1.
Definition TokenStatusDisabled : Z := 2.
Definition TokenStatusExpired : Z := 3.
Definition TokenStatusExhausted : Z := 4.

Definition TokenStatus_ToEzAPIStatus (s : Z) : string :=
  if s =? TokenStatusEnabled then "active"
  else if s =? TokenStatusDisabled then "disabled"
  else if s =? TokenStatusExpired then "expired"
  else if s =? TokenStatusExhausted then "exhausted"
  else "disabled".

Definition ChannelStatusUnknown : Z := 0.
Definition ChannelStatusEnabled : Z := 1.
Definition ChannelStatusManuallyDisabled : Z := 2.
Definition ChannelStatusAutoDisabled : Z := 3.

Definition ChannelStatus_ToEzAPIStatus (s : Z) : string :=
  if s =? ChannelStatusEnabled then "active"
  else if (s =? ChannelStatusManuallyDisabled)
          || (s =? ChannelStatusAutoDisabled)
          || (s =? ChannelStatusUnknown) then "disabled"
  else "disabled".

Definition MapUserStatus (status : Z) : string :=
  UserStatus_ToEzAPIStatus status.

Definition MapTokenStatus (status : Z) : string :=
  TokenStatus_ToEzAPIStatus status.

Definition MapChannelStatus (status : Z) : string :=
  ChannelStatus_ToEzAPIStatus status.

(** ** Package newapi: the exporter *)

(** What a query of the connector returns: the rows, or the error. *)
Inductive result (A : Type) : Type :=
| Ok (a : A)
| Err (e : error).
Arguments Ok {A} a.
Arguments Err {A} e.

(** The read interface of the source database that the exporter uses. The
    database is not written during an export: a query is a function of its
    arguments. *)
Module Connector.
Record t : Type := mk {
  GetAllChannels : result (list Channel.t);
  GetUsersWithTokens : result (list User.t);
  GetTokensByUserID : Z -> result (list Token.t);
  GetAllAbilities : result (list Ability.t)
}.
End Connector.

Module ExporterConfig.
Record t : Type := mk {
  IncludeTokens : bool;
  IncludeAbilities : bool;
  Verbose : bool
}.
End ExporterConfig.

Definition DefaultExporterConfig : ExporterConfig.t :=
  ExporterConfig.mk true false false.

(** The methods of [Exporter] read and write [e.result]: a state monad on
    the export result. *)
Definition M (A : Type) : Type := ExportResult.t -> A * ExportResult.t.

Definition ret {A : Type} (a : A) : M A := fun r => (a, r).

Definition bind {A B : Type} (m : M A) (k : A -> M B) : M B :=
  fun r => let '(a, r') := m r in k a r'.

Notation "x <- m ;; k" := (bind m (fun x => k))
  (at level 100, m at next level, right associativity).
Notation "m ;;; k" := (bind m (fun _ => k))
  (at level 100, right associativity).

Definition AddWarning (msg : string) : M unit :=
  fun r => (tt, schema.AddWarning r msg).
Definition AddProvider (p : Provider.t) : M unit :=
  fun r => (tt, schema.AddProvider r p).
Definition AddMaster (m : Master.t) : M unit :=
  fun r => (tt, schema.AddMaster r m).
Definition AddKey (k : Key.t) : M unit :=
  fun r => (tt, schema.AddKey r k).
Definition AddBinding (b : Binding.t) : M unit :=
  fun r => (tt, schema.AddBinding r b).

(** [if c { body }]. *)
Definition when (c : bool) (body : M unit) : M unit :=
  if c then body else ret tt.

(** [for _, x := range l { body }]. *)
Fixpoint for_each {A : Type} (l : list A) (body : A -> M unit) : M unit :=
  match l with
  | [] => ret tt
  | x :: rest => body x ;;; for_each rest body
  end.

(** *** Helper functions *)

Definition nonEmpty (s : string) : bool := negb (String.eqb s "").

(** The loop that [parseKeys], [parseGroups] and [parseModels] each have:
    every part is trimmed and appended to [acc] unless it is empty. *)
Fixpoint appendTrimmed (parts : list string) (acc : list string)
  : list string :=
  match parts with
  | [] => acc
  | part :: rest =>
    let part := strings.TrimSpace part in
    if nonEmpty part then appendTrimmed rest (acc ++ [part])
    else appendTrimmed rest acc
  end.

Definition parseKeys (key : string) : list string :=
  if String.eqb key "" then []
  else
    let lines := strings.Split key newline in
    let keys := appendTrimmed lines [] in
    if (length keys =? 0)%nat then [key] else keys.

Definition parseGroups (group : string) : list string :=
  if String.eqb group "" then ["default"]
  else
    let parts := strings.Split group comma in
    let groups := appendTrimmed parts [] in
    if (length groups =? 0)%nat then ["default"] else groups.

Definition parseModels (models : string) : list string :=
  if String.eqb models "" then []
  else
    let parts := strings.Split models comma in
    appendTrimmed parts [].

(** *** Users, tokens and abilities *)

Definition userToMaster (user : User.t) : Master.t :=
  Master.mk (User.Username user) (User.Group user) [User.Group user]
    (User.Group user) 10 3 (MapUserStatus (User.Status user))
    (User.ID user) (User.Email user).

Definition tokenToKey (token : Token.t) (masterRef : string) : Key.t :=
  let key :=
    Key.mk masterRef (Token.Key token) (Token.Group token)
      (MapTokenStatus (Token.Status token))
      ["chat:*"; "completions:*"] [Token.Group token]
      (Token.ModelLimitsEnabled token) [] None [] None None
      (Token.UnlimitedQuota token) (Token.ID token) true in
  let key :=
    if Token.ModelLimitsEnabled token && nonEmpty (Token.ModelLimits token)
    then Key.set_ModelLimits key (parseModels (Token.ModelLimits token))
    else key in
  let key :=
    if (0 <? Token.ExpiredTime token)
       && negb (Token.ExpiredTime token =? -1)
    then Key.set_ExpiresAt key (TimestampToTime (Token.ExpiredTime token))
    else key in
  let key :=
    match Token.AllowIPs token with
    | Some ips =>
      if nonEmpty ips
      then Key.set_AllowIPs key
             (map strings.TrimSpace (strings.Split ips comma))
      else key
    | None => key
    end in
  let key :=
    if negb (Token.UnlimitedQuota token)
    then
      let quota := int64_of_int (Token.RemainQuota token) in
      let key := Key.set_QuotaLimit key (Some quota) in
      let used := int64_of_int (Token.UsedQuota token) in
      Key.set_QuotaUsed key (Some used)
    else key in
  key.

Definition abilityToBinding (ab : Ability.t) : Binding.t :=
  let status := if negb (Ability.Enabled ab) then "disabled" else "active" in
  Binding.mk (Ability.Group ab) (Ability.Group ab) (Ability.Model ab) status.

(** *** The warnings of a channel *)

Definition channelPrefix (ch : Channel.t) : string :=
  "Channel '" ++ Channel.Name ch ++ "' (ID=" ++ itoa (Channel.ID ch) ++ ")".

Definition unknownTypeWarning (ch : Channel.t) : string :=
  channelPrefix ch ++ " has unknown type " ++ itoa (Channel.Type_ ch)
  ++ ", mapped to 'custom'".

(** [f != nil && *f > 0] and [*f] on a numeric pointer field. *)
Definition isPositive (f : option Z) : bool :=
  match f with
  | Some v => 0 <? v
  | None => false
  end.

Definition deref (f : option Z) : Z :=
  match f with
  | Some v => v
  | None => 0
  end.

(** [f != nil && *f != ""] on a string pointer field. *)
Definition isSet (f : option string) : bool :=
  match f with
  | Some s => nonEmpty s
  | None => false
  end.

(** The messages of [checkUnmappableFields]. *)
Definition priorityWarning (ch : Channel.t) (p : Z) : string :=
  channelPrefix ch ++ " has priority=" ++ itoa p
  ++ " which is not supported in EZ-API".

Definition modelMappingWarning (ch : Channel.t) : string :=
  channelPrefix ch
  ++ " has model_mapping which is not migrated. Use EZ-API Binding instead.".

Definition statusCodeMappingWarning (ch : Channel.t) : string :=
  channelPrefix ch
  ++ " has status_code_mapping which is not supported in EZ-API".

Definition settingWarning (ch : Channel.t) : string :=
  channelPrefix ch ++ " has custom settings which are not migrated".

Definition paramOverrideWarning (ch : Channel.t) : string :=
  channelPrefix ch ++ " has param_override which is not supported in EZ-API".

Definition headerOverrideWarning (ch : Channel.t) : string :=
  channelPrefix ch ++ " has header_override which is not supported in EZ-API".

Definition multiGroupWarning (ch : Channel.t) (groups : list string)
  : string :=
  channelPrefix ch ++ " belongs to multiple groups " ++ fmt_strings groups
  ++ ". Only '" ++ hd "" groups
  ++ "' is used as primary group. Consider creating Bindings for other groups.".

(** [ch.Priority != nil && *ch.Priority != 0]. *)
Definition isNonZero (f : option Z) : bool :=
  match f with
  | Some v => negb (v =? 0)
  | None => false
  end.

Definition checkUnmappableFields (ch : Channel.t) : M unit :=
  when (isNonZero (Channel.Priority ch))
    (AddWarning (priorityWarning ch (deref (Channel.Priority ch)))) ;;;
  when (isSet (Channel.ModelMapping ch))
    (AddWarning (modelMappingWarning ch)) ;;;
  when (isSet (Channel.StatusCodeMapping ch))
    (AddWarning (statusCodeMappingWarning ch)) ;;;
  when (isSet (Channel.Setting ch))
    (AddWarning (settingWarning ch)) ;;;
  when (isSet (Channel.ParamOverride ch))
    (AddWarning (paramOverrideWarning ch)) ;;;
  when (isSet (Channel.HeaderOverride ch))
    (AddWarning (headerOverrideWarning ch)) ;;;
  let groups := parseGroups (Channel.Group ch) in
  when (1 <? length groups)%nat
    (AddWarning (multiGroupWarning ch groups)).

Definition tokensWarning (user : User.t) (err : error) : string :=
  "Failed to get tokens for user '" ++ User.Username user ++ "' (ID="
  ++ itoa (User.ID user) ++ "): " ++ Error err.

Section Exporter.

(** [json.Marshal] on a channel: the bytes, or [None] when it fails. *)
Variable json_Marshal : Channel.t -> option string.

Variable connector : Connector.t.
Variable config : ExporterConfig.t.

Definition createOriginalBackup (ch : Channel.t) : option string :=
  match json_Marshal ch with
  | None => None
  | Some data => Some data
  end.

(** The body of the loop [for i, key := range keys] of
    [channelToProviders]. *)
Definition keyProvider (ch : Channel.t) (isMultiKey : bool)
  (providerType baseURL : string) (models : list string)
  (primaryGroup : string) (groups : list string) (weight priority : Z)
  (status : string) (autoBan : bool) (original : option string)
  (i : nat) (key : string) : Provider.t :=
  let name :=
    if isMultiKey && (0 <? i)%nat
    then Channel.Name ch ++ "-" ++ itoa (Z.of_nat i + 1)
    else Channel.Name ch in
  let p :=
    Provider.mk (Channel.ID ch) name providerType baseURL key models
      primaryGroup groups weight priority status autoBan isMultiKey
      0 "" original in
  if isMultiKey
  then Provider.set_OriginalName
         (Provider.set_MultiKeyIndex p (Z.of_nat i + 1)) (Channel.Name ch)
  else p.

Definition channelToProviders (ch : Channel.t) : M (list Provider.t) :=
  let keys := parseKeys (Channel.Key ch) in
  let isMultiKey := (1 <? length keys)%nat in
  let groups := parseGroups (Channel.Group ch) in
  let primaryGroup := hd "" groups in
  let '(providerType, typeOK) := MapChannelType (Channel.Type_ ch) in
  when (negb typeOK) (AddWarning (unknownTypeWarning ch)) ;;;
  let status := MapChannelStatus (Channel.Status ch) in
  let baseURL :=
    match Channel.BaseURL ch with
    | Some u => u
    | None => ""
    end in
  let weight :=
    if isPositive (Channel.Weight ch)
    then int_of_uint (deref (Channel.Weight ch))
    else if isPositive (Channel.Priority ch)
    then int_of_int64 (deref (Channel.Priority ch))
    else 1 in
  let priority :=
    if isPositive (Channel.Priority ch)
    then int_of_int64 (deref (Channel.Priority ch))
    else 0 in
  let autoBan :=
    match Channel.AutoBan ch with
    | Some a => a =? 1
    | None => true
    end in
  let models := parseModels (Channel.Models ch) in
  let original := createOriginalBackup ch in
  checkUnmappableFields ch ;;;
  ret (imap (keyProvider ch isMultiKey providerType baseURL models
               primaryGroup groups weight priority status autoBan original)
         keys).

Definition exportChannels : M (option error) :=
  match Connector.GetAllChannels connector with
  | Err err => ret (Some err)
  | Ok channels =>
    for_each channels (fun ch =>
      providers <- channelToProviders ch ;;
      for_each providers AddProvider) ;;;
    ret None
  end.

(** The loop [for _, user := range users] of [exportUsersAndTokens], with
    the local [masterMap] (user id to master name), which is written and
    never read. *)
Fixpoint usersLoop (users : list User.t) (masterMap : gmap Z string)
  : M (gmap Z string) :=
  match users with
  | [] => ret masterMap
  | user :: rest =>
    let master := userToMaster user in
    AddMaster master ;;;
    let masterMap := <[User.ID user := Master.Name master]> masterMap in
    match Connector.GetTokensByUserID connector (User.ID user) with
    | Err err =>
      AddWarning (tokensWarning user err) ;;;
      usersLoop rest masterMap
    | Ok tokens =>
      for_each tokens (fun token =>
        AddKey (tokenToKey token (Master.Name master))) ;;;
      usersLoop rest masterMap
    end
  end.

Definition exportUsersAndTokens : M (option error) :=
  match Connector.GetUsersWithTokens connector with
  | Err err => ret (Some (Errorf_w "failed to get users" err))
  | Ok users =>
    usersLoop users (∅ : gmap Z string) ;;;
    ret None
  end.

Definition exportAbilities : M (option error) :=
  match Connector.GetAllAbilities connector with
  | Err err => ret (Some err)
  | Ok abilities =>
    for_each abilities (fun ab => AddBinding (abilityToBinding ab)) ;;;
    ret None
  end.

(** [Export]: the result [e.result] after the three phases, or the error of
    the phase that failed, and then no result. *)
Definition Export : M (result ExportResult.t) :=
  err <- exportChannels ;;
  match err with
  | Some err => ret (Err (Errorf_w "failed to export channels" err))
  | None =>
    err <- (if ExporterConfig.IncludeTokens config
            then exportUsersAndTokens else ret None) ;;
    match err with
    | Some err => ret (Err (Errorf_w "failed to export users/tokens" err))
    | None =>
      err <- (if ExporterConfig.IncludeAbilities config
              then exportAbilities else ret None) ;;
      match err with
      | Some err => ret (Err (Errorf_w "failed to export abilities" err))
      | None => fun r => (Ok r, r)
      end
    end
  end.

(** [NewExporter(connector, config).Export()]: what the caller receives. *)
Definition runExport (now : Time) : result ExportResult.t :=
  fst (Export (schema.NewExportResult now)).

End Exporter.

(** ** The vocabulary of the specification *)

(** A string of white space only: the loop [for _, r := range s] meets no
    rune that is not white space ([unicode.IsSpace]). The empty string is
    one. *)
Definition whitespaceOnly (s : string) : Prop :=
  strings.indexFunc s unicode.IsSpace false = -1.

(** The same, rune by rune. *)
Inductive spaces : string -> Prop :=
| spaces_nil : spaces ""
| spaces_rune (s : string) (r size : Z) :
    s <> "" ->
    utf8.DecodeRuneInString s = (r, size) ->
    unicode.IsSpace r = true ->
    spaces (slice_from s size) ->
    spaces s.

(** The segments of a credential field as the specification words them:
    split on newlines, trim every line, drop the empty ones. *)
Definition secretSegments (field : string) : list string :=
  List.filter nonEmpty (map strings.TrimSpace (strings.Split field newline)).

(** [r] with the warnings [ws] appended. *)
Definition addWarnings (r : ExportResult.t) (ws : list string)
  : ExportResult.t :=
  ExportResult.mk (ExportResult.Version r) (ExportResult.Source r)
    (ExportResult.Data r) (ExportResult.Warnings r ++ ws).

Definition warningIf (c : bool) (w : string) : list string :=
  if c then [w] else [].

(** The warnings that [checkUnmappableFields] appends for a channel, in
    order. *)
Definition fieldWarnings (ch : Channel.t) : list string :=
  (warningIf (isNonZero (Channel.Priority ch))
     (priorityWarning ch (deref (Channel.Priority ch)))
   ++ warningIf (isSet (Channel.ModelMapping ch)) (modelMappingWarning ch)
   ++ warningIf (isSet (Channel.StatusCodeMapping ch))
        (statusCodeMappingWarning ch)
   ++ warningIf (isSet (Channel.Setting ch)) (settingWarning ch)
   ++ warningIf (isSet (Channel.ParamOverride ch)) (paramOverrideWarning ch)
   ++ warningIf (isSet (Channel.HeaderOverride ch)) (headerOverrideWarning ch)
   ++ warningIf (1 <? length (parseGroups (Channel.Group ch)))%nat
        (multiGroupWarning ch (parseGroups (Channel.Group ch))))%list.

(** [r] with another instant of export. *)
Definition setExportedAt (t : Time) (r : ExportResult.t) : ExportResult.t :=
  ExportResult.mk (ExportResult.Version r)
    (Source.mk (Source.Type_ (ExportResult.Source r))
       (Source.Version (ExportResult.Source r)) t)
    (ExportResult.Data r) (ExportResult.Warnings r).

Definition mapResult {A B : Type} (f : A -> B) (x : result A) : result B :=
  match x with
  | Ok a => Ok (f a)
  | Err e => Err e
  end.

(** [r'] holds everything [r] holds, in the same order, and maybe more
    after it. *)
Definition extends (r r' : ExportResult.t) : Prop :=
  ExportResult.Version r' = ExportResult.Version r
  /\ ExportResult.Source r' = ExportResult.Source r
  /\ Data.Providers (ExportResult.Data r)
     `prefix_of` Data.Providers (ExportResult.Data r')
  /\ Data.Masters (ExportResult.Data r)
     `prefix_of` Data.Masters (ExportResult.Data r')
  /\ Data.Keys (ExportResult.Data r)
     `prefix_of` Data.Keys (ExportResult.Data r')
  /\ Data.Bindings (ExportResult.Data r)
     `prefix_of` Data.Bindings (ExportResult.Data r')
  /\ ExportResult.Warnings r `prefix_of` ExportResult.Warnings r'.

(** A step that never reads or writes the instant of export. *)
Definition clockFree {A : Type} (m : M A) : Prop :=
  forall (t : Time) (r : ExportResult.t),
    m (setExportedAt t r) = (fst (m r), setExportedAt t (snd (m r))).

(** ** Sample data *)

(** A [json.Marshal] that fails on every channel. *)
Definition noBackup (ch : Channel.t) : option string := None.

Definition emptyResult : ExportResult.t := schema.NewExportResult (Unix 0 0).

(** The channel 7 of the given kind, name, credential field, weight and
    priority, enabled, in the group "default", and nothing else set. *)
Definition plainChannel (kind : Z) (name key : string)
  (weight priority : option Z) : Channel.t :=
  Channel.mk 7 kind key None None 1 name weight 0 0 0 None "" 0 0 ""
    "default" 0 None None priority None "" None None None None None None "".

(** A tab, a newline, a no-break space (U+00A0 in UTF-8) and a space. *)
Definition blankKey : string :=
  String "009" (String newline (String "194" (String "160" " "))).

Definition blankChannel : Channel.t :=
  plainChannel 1 "acme" blankKey None None.

Definition emptyKeyChannel : Channel.t := plainChannel 1 "acme" "" None None.

Definition twoKeyChannel : Channel.t :=
  plainChannel 1 "acme" ("sk-a" ++ String newline "sk-b") None None.

Definition oneKeyChannel : Channel.t :=
  plainChannel 1 "acme" "sk-a" (Some 5) (Some 3).

Definition unknownKindChannel : Channel.t :=
  plainChannel 999 "acme" "sk-a" None None.

(** A channel of an unknown kind whose credential field is empty. *)
Definition unknownKindEmptyChannel : Channel.t :=
  plainChannel 999 "acme" "" None None.

(** A channel whose weight is 2^63. *)
Definition heavyChannel : Channel.t :=
  plainChannel 1 "acme" "sk-a" (Some 9223372036854775808) None.

(** The token 11 of user 3 with the given expiry, quota counters and
    unlimited flag. *)
Definition plainToken (expired remain used : Z) (unlimited : bool)
  : Token.t :=
  Token.mk 11 3 "tok" 1 "t" 0 0 expired remain unlimited false "" None used
    "default" false None.

Definition bob : User.t :=
  User.mk 3 "bob" "" "" 1 1 "bob@example.org" "" "" "" "" "" None 0 0 0
    "default" "" 0 0 0 0 None "" "" "" "".

Definition dbDown : error := errorString "connection refused".

(** Connectors on which one query fails. *)
Definition noChannels : Connector.t :=
  Connector.mk (Err dbDown) (Ok []) (fun _ => Ok []) (Ok []).

Definition noUsers : Connector.t :=
  Connector.mk (Ok []) (Err dbDown) (fun _ => Ok []) (Ok []).

Definition noAbilities : Connector.t :=
  Connector.mk (Ok []) (Ok []) (fun _ => Ok []) (Err dbDown).

Definition noTokens : Connector.t :=
  Connector.mk (Ok [twoKeyChannel]) (Ok [bob]) (fun _ => Err dbDown) (Ok []).

Definition withEverything : ExporterConfig.t :=
  ExporterConfig.mk true true false.

(** ** More of the repository *)

(** *** Package newapi: status and role predicates *)

Definition TokenStatus_IsActive (s : Z) : bool := s =? TokenStatusEnabled.

Definition ChannelStatus_IsActive (s : Z) : bool := s =? ChannelStatusEnabled.

(** *** Package newapi: the display names of the channel types *)

Definition channelTypeDisplayNames : gmap Z string :=
  list_to_map [
    (ChannelTypeUnknown, "Unknown");
    (ChannelTypeOpenAI, "OpenAI");
    (ChannelTypeMidjourney, "Midjourney");
    (ChannelTypeAzure, "Azure");
    (ChannelTypeOllama, "Ollama");
    (ChannelTypeMidjourneyPlus, "MidjourneyPlus");
    (ChannelTypeOpenAIMax, "OpenAIMax");
    (ChannelTypeOhMyGPT, "OhMyGPT");
    (ChannelTypeCustom, "Custom");
    (ChannelTypeAILS, "AILS");
    (ChannelTypeAIProxy, "AIProxy");
    (ChannelTypePaLM, "PaLM");
    (ChannelTypeAPI2GPT, "API2GPT");
    (ChannelTypeAIGC2D, "AIGC2D");
    (ChannelTypeAnthropic, "Anthropic");
    (ChannelTypeBaidu, "Baidu");
    (ChannelTypeZhipu, "Zhipu");
    (ChannelTypeAli, "Ali");
    (ChannelTypeXunfei, "Xunfei");
    (ChannelType360, "360");
    (ChannelTypeOpenRouter, "OpenRouter");
    (ChannelTypeAIProxyLibrary, "AIProxyLibrary");
    (ChannelTypeFastGPT, "FastGPT");
    (ChannelTypeTencent, "Tencent");
    (ChannelTypeGemini, "Gemini");
    (ChannelTypeMoonshot, "Moonshot");
    (ChannelTypeZhipuV4, "ZhipuV4");
    (ChannelTypePerplexity, "Perplexity");
    (ChannelTypeLingYiWanWu, "LingYiWanWu");
    (ChannelTypeAws, "AWS");
    (ChannelTypeCohere, "Cohere");
    (ChannelTypeMiniMax, "MiniMax");
    (ChannelTypeSunoAPI, "SunoAPI");
    (ChannelTypeDify, "Dify");
    (ChannelTypeJina, "Jina");
    (ChannelTypeCloudflare, "Cloudflare");
    (ChannelTypeSiliconFlow, "SiliconFlow");
    (ChannelTypeVertexAI, "VertexAI");
    (ChannelTypeMistral, "Mistral");
    (ChannelTypeDeepSeek, "DeepSeek");
    (ChannelTypeMokaAI, "MokaAI");
    (ChannelTypeVolcEngine, "VolcEngine");
    (ChannelTypeBaiduV2, "BaiduV2");
    (ChannelTypeXinference, "Xinference");
    (ChannelTypeXai, "xAI");
    (ChannelTypeCoze, "Coze");
    (ChannelTypeKling, "Kling");
    (ChannelTypeJimeng, "Jimeng");
    (ChannelTypeVidu, "Vidu");
    (ChannelTypeSubmodel, "Submodel");
    (ChannelTypeDoubaoVideo, "DoubaoVideo");
    (ChannelTypeSora, "Sora");
    (ChannelTypeReplicate, "Replicate")
  ].

Definition DisplayName (t : Z) : string :=
  match channelTypeDisplayNames !! t with
  | Some name => name
  | None => "Unknown"
  end.

(** *** Package schema: the summary *)

Module Summary.
Record t : Type := mk {
  Providers : Z;
  Masters : Z;
  Keys : Z;
  Bindings : Z;
  Warnings : Z
}.
End Summary.

Definition GetSummary (r : ExportResult.t) : Summary.t :=
  Summary.mk
    (Z.of_nat (length (Data.Providers (ExportResult.Data r))))
    (Z.of_nat (length (Data.Masters (ExportResult.Data r))))
    (Z.of_nat (length (Data.Keys (ExportResult.Data r))))
    (Z.of_nat (length (Data.Bindings (ExportResult.Data r))))
    (Z.of_nat (length (ExportResult.Warnings r))).

(** *** The command line: [formatBytes] *)

(** An [int64] after an operation that may overflow. *)
Definition int64_wrap (z : Z) : Z := int_of_uint z.

Definition unit_ : Z := 1024.

(** The loop [for n := bytes / unit; n >= unit; n /= unit] of
    [formatBytes], on [n], [div] and [exp]; [None] when the fuel runs
    out. *)
Fixpoint scaleLoop (fuel : nat) (n div exp : Z) : option (Z * Z) :=
  match fuel with
  | O => None
  | S k =>
    if unit_ <=? n
    then scaleLoop k (Z.quot n unit_) (int64_wrap (div * unit_)) (exp + 1)
    else Some (div, exp)
  end.

(** What [formatBytes] hands to [fmt.Sprintf]: the text of the first
    branch, or the operands of ["%.1f %cB"], the quotient
    [float64(bytes)/float64(div)] being left as its two operands. *)
Inductive formatted : Type :=
| Plain (text : string)
| Scaled (bytes div : Z) (unitChar : ascii).

(** How a call ends: with a value, with the panic of an index out of
    range, or not within the fuel. *)
Inductive outcome (A : Type) : Type :=
| Returns (a : A)
| Panics
| OutOfFuel.
Arguments Returns {A} a.
Arguments Panics {A}.
Arguments OutOfFuel {A}.

Definition formatBytes_fuel (fuel : nat) (bytes : Z) : outcome formatted :=
  if bytes <? unit_ then Returns (Plain (itoa bytes ++ " B"))
  else
    match scaleLoop fuel (Z.quot bytes unit_) unit_ 0 with
    | None => OutOfFuel
    | Some (div, exp) =>
      match (if 0 <=? exp then String.get (Z.to_nat exp) "KMGTPE"
             else None) with
      | Some unitChar => Returns (Scaled bytes div unitChar)
      | None => Panics
      end
    end.

Definition formatBytes (bytes : Z) : outcome formatted :=
  formatBytes_fuel 64 bytes.

(** ** More vocabulary *)

(** The Providers of a channel: [channelToProviders] returns the same ones
    on every accumulator. *)
Definition channelProviders (json_Marshal : Channel.t -> option string)
  (ch : Channel.t) : list Provider.t :=
  fst (channelToProviders json_Marshal ch emptyResult).

(** The warnings [channelToProviders] appends for a channel. *)
Definition channelWarnings (ch : Channel.t) : list string :=
  (warningIf (negb (snd (MapChannelType (Channel.Type_ ch))))
     (unknownTypeWarning ch) ++ fieldWarnings ch)%list.

(** [r] with Providers, Masters, Keys, Bindings and warnings appended. *)
Definition extendWith (r : ExportResult.t) (providers : list Provider.t)
  (masters : list Master.t) (keys : list Key.t) (bindings : list Binding.t)
  (warnings : list string) : ExportResult.t :=
  ExportResult.mk (ExportResult.Version r) (ExportResult.Source r)
    (Data.mk (Data.Providers (ExportResult.Data r) ++ providers)
       (Data.Masters (ExportResult.Data r) ++ masters)
       (Data.Keys (ExportResult.Data r) ++ keys)
       (Data.Bindings (ExportResult.Data r) ++ bindings))
    (ExportResult.Warnings r ++ warnings).

(** The Keys and the warning of a user in [exportUsersAndTokens]. *)
Definition userKeys (connector : Connector.t) (user : User.t) : list Key.t :=
  match Connector.GetTokensByUserID connector (User.ID user) with
  | Ok tokens =>
    map (fun token => tokenToKey token (User.Username user)) tokens
  | Err _ => []
  end.

Definition userWarnings (connector : Connector.t) (user : User.t)
  : list string :=
  match Connector.GetTokensByUserID connector (User.ID user) with
  | Ok _ => []
  | Err err => [tokensWarning user err]
  end.

(** The names in a multi-valued field: split on [sep], trim every part,
    drop the empty ones. *)
Definition fieldParts (field : string) (sep : ascii) : list string :=
  List.filter nonEmpty (map strings.TrimSpace (strings.Split field sep)).

(** Two Providers that differ in name, api_key and multi_key_index at
    most. *)
Definition sameSource (p q : Provider.t) : Prop :=
  Provider.OriginalID p = Provider.OriginalID q
  /\ Provider.Type_ p = Provider.Type_ q
  /\ Provider.BaseURL p = Provider.BaseURL q
  /\ Provider.Models p = Provider.Models q
  /\ Provider.PrimaryGroup p = Provider.PrimaryGroup q
  /\ Provider.AllGroups p = Provider.AllGroups q
  /\ Provider.Weight p = Provider.Weight q
  /\ Provider.Priority p = Provider.Priority q
  /\ Provider.Status p = Provider.Status q
  /\ Provider.AutoBan p = Provider.AutoBan q
  /\ Provider.IsMultiKey p = Provider.IsMultiKey q
  /\ Provider.OriginalName p = Provider.OriginalName q
  /\ Provider.Original p = Provider.Original q.

(** Every Key names a Master of the same result. *)
Definition keysHaveMasters (r : ExportResult.t) : Prop :=
  Forall (fun k =>
            exists m, In m (Data.Masters (ExportResult.Data r))
                      /\ Master.Name m = Key.MasterRef k)
    (Data.Keys (ExportResult.Data r)).

(** The number of bytes [sep] in [s]. *)
Fixpoint countByte (sep : ascii) (s : string) : nat :=
  match s with
  | EmptyString => O
  | String c t => (if Ascii.eqb c sep then 1 else 0) + countByte sep t
  end.

(** [p] without its snapshot of the channel. *)
Definition withoutOriginal (p : Provider.t) : Provider.t :=
  Provider.mk (Provider.OriginalID p) (Provider.Name p) (Provider.Type_ p)
    (Provider.BaseURL p) (Provider.APIKey p) (Provider.Models p)
    (Provider.PrimaryGroup p) (Provider.AllGroups p) (Provider.Weight p)
    (Provider.Priority p) (Provider.Status p) (Provider.AutoBan p)
    (Provider.IsMultiKey p) (Provider.MultiKeyIndex p)
    (Provider.OriginalName p) None.

(** [w] starts with [prefix]. *)
Definition startsWith (prefix w : string) : Prop :=
  exists tail, w = prefix ++ tail.

(** The kinds of channel the table [channelTypeMapping] knows. *)
Definition knownKind (t : Z) : bool :=
  (0 <=? t) && (t <=? 56)
  && negb ((t =? 28) || (t =? 29) || (t =? 30) || (t =? 32)).

(** ** More sample data *)

Definition gptAbility : Ability.t :=
  Ability.mk "default" "gpt-4" 7 true None 0 None.

Definition offAbility : Ability.t :=
  Ability.mk "vip" "gpt-4" 7 false None 0 None.

(** A connector that answers every query: two channels, the user bob with
    two tokens, two abilities. *)
Definition sampleConnector : Connector.t :=
  Connector.mk (Ok [twoKeyChannel; unknownKindChannel]) (Ok [bob])
    (fun _ => Ok [plainToken (-1) 0 0 true; plainToken 1700000000 5 7 false])
    (Ok [gptAbility; offAbility]).

(** The user of the given id and name, enabled, in the group "default". *)
Definition plainUser (id : Z) (name : string) : User.t :=
  User.mk id name "" "" 1 1 "" "" "" "" "" "" None 0 0 0
    "default" "" 0 0 0 0 None "" "" "" "".

Definition alice : User.t := plainUser 1 "alice".

Definition carol : User.t := plainUser 5 "carol".

Definition root : User.t := plainUser 9 "root".

(** The token of the given id, user and key, enabled, never expiring and
    unlimited. *)
Definition tokenOf (id userID : Z) (key : string) : Token.t :=
  Token.mk id userID key 1 "t" 0 0 (-1) 0 true false "" None 0
    "default" false None.

(** A connector on which the tokens of the user 3 cannot be fetched, and
    every other query is answered: one channel, the users alice, bob and
    carol in that order, one token per user other than bob, one ability. *)
Definition bobTokensDown : Connector.t :=
  Connector.mk (Ok [oneKeyChannel]) (Ok [alice; bob; carol])
    (fun userID =>
       if userID =? 3 then Err dbDown
       else Ok [tokenOf (10 * userID) userID ("tok-" ++ itoa userID)])
    (Ok [gptAbility]).

(** A result that holds a Master, a Key and a warning already. *)
Definition earlierResult : ExportResult.t :=
  extendWith emptyResult [] [userToMaster root]
    [tokenToKey (tokenOf 90 9 "tok-9") "root"] [] ["an earlier warning"].

(** ** Properties *)

(** *** The runtime on samples *)

Example TrimSpace_ascii : strings.TrimSpace "  sk-a 	" = "sk-a".
Proof. reflexivity. Qed.

Example TrimSpace_nbsp :
  strings.TrimSpace (String "194" (String "160" ("k" ++ String "226" (String "128" (String "131" " ")))))
  = "k".
Proof. reflexivity. Qed.

Example TrimSpace_invalid :
  strings.TrimSpace (String "160" " k ") = String "160" " k".
Proof. reflexivity. Qed.

Example Split_lines :
  strings.Split ("sk-a" ++ String newline "sk-b") newline = ["sk-a"; "sk-b"].
Proof. reflexivity. Qed.

Example Split_empty : strings.Split "" newline = [""].
Proof. reflexivity. Qed.

(** *** The decoder of UTF-8 *)

Lemma byte_range (c : ascii) : 0 <= byte c < 256.
Proof.
  unfold byte. pose proof (N_ascii_bounded c). lia.
Qed.

Lemma len_String (c : ascii) (s : string) : len (String c s) = len s + 1.
Proof. unfold len. simpl String.length. lia. Qed.

Lemma len_nonneg (s : string) : 0 <= len s.
Proof. unfold len. lia. Qed.

Lemma acceptRanges_newline (i : Z) :
  (10 <? fst (utf8.acceptRanges i)) || (snd (utf8.acceptRanges i) <? 10) = true.
Proof.
  unfold utf8.acceptRanges.
  destruct i as [|p|p]; try reflexivity.
  do 3 (try destruct p as [p|p|]; try reflexivity).
Qed.

Lemma decode_ascii (c : ascii) (t : string) :
  byte c < 128 -> utf8.DecodeRuneInString (String c t) = (byte c, 1).
Proof.
  intros Hc. unfold utf8.DecodeRuneInString, utf8.first.
  destruct (byte c <? 128) eqn:E; [reflexivity | lia].
Qed.

Lemma decode_size1 (c : ascii) (t : string) (r : Z) :
  utf8.DecodeRuneInString (String c t) = (r, 1) ->
  (r = byte c /\ byte c < 128) \/ r = utf8.RuneError.
Proof.
  unfold utf8.DecodeRuneInString.
  set (x := utf8.first (byte c)).
  destruct (utf8.as_ <=? x) eqn:E.
  - intros H. injection H as <-.
    destruct (x =? utf8.xx) eqn:E2; [now right|left].
    split; [reflexivity|].
    subst x. unfold utf8.first in *.
    destruct (byte c <? 128) eqn:E3; [lia|].
    exfalso. revert E E2.
    repeat match goal with |- context [if ?b then _ else _] => destruct b end;
      vm_compute; congruence.
  - cbv zeta.
    repeat match goal with
    | |- context [if ?b then _ else _] => destruct b
    | |- context [match ?t with EmptyString => _ | String _ _ => _ end] => destruct t
    end; intros H; injection H as <-; try (now right); try discriminate.
Qed.

Lemma byte_newline : byte newline = 10.
Proof. reflexivity. Qed.

Lemma first_newline (c : ascii) :
  (utf8.as_ <=? utf8.first (byte c)) = false -> c <> newline.
Proof. intros E ->. vm_compute in E. discriminate. Qed.

Lemma cont_newline (c : ascii) :
  (byte c <? utf8.locb) || (utf8.hicb <? byte c) = false -> c <> newline.
Proof. intros E ->. vm_compute in E. discriminate. Qed.

Lemma accept_newline (c : ascii) (i : Z) :
  (byte c <? fst (utf8.acceptRanges i)) || (snd (utf8.acceptRanges i) <? byte c)
  = false -> c <> newline.
Proof.
  intros E ->. rewrite byte_newline, acceptRanges_newline in E. discriminate.
Qed.

Ltac decode_step :=
  match goal with
  | |- context [match ?t with EmptyString => _ | String _ _ => _ end] =>
    destruct t
  | |- context [if ?b then _ else _] => destruct b eqn:?
  end.

Lemma decode_size2 (c0 : ascii) (t0 : string) (r : Z) :
  utf8.DecodeRuneInString (String c0 t0) = (r, 2) ->
  exists c1 t1, t0 = String c1 t1 /\ c0 <> newline /\ c1 <> newline /\
    forall t', utf8.DecodeRuneInString (String c0 (String c1 t')) = (r, 2).
Proof.
  unfold utf8.DecodeRuneInString.
  set (x := utf8.first (byte c0)).
  destruct (utf8.as_ <=? x) eqn:E; [discriminate|].
  cbv zeta.
  destruct (len (String c0 t0) <? Z.land x 7) eqn:El; [discriminate|].
  destruct t0 as [|c1 t1]; [discriminate|].
  destruct ((byte c1 <? fst (utf8.acceptRanges (Z.shiftr x 4)))
            || (snd (utf8.acceptRanges (Z.shiftr x 4)) <? byte c1)) eqn:Ea;
    [discriminate|].
  destruct (Z.land x 7 <=? 2) eqn:Es.
  - intros H. injection H as <-.
    exists c1, t1. split; [reflexivity|].
    split; [now apply first_newline|].
    split; [now apply accept_newline in Ea|].
    intros t'.
    assert ((len (String c0 (String c1 t')) <? Z.land x 7) = false) as ->.
    { rewrite !len_String. pose proof (len_nonneg t'). lia. }
    now rewrite Ea.
  - repeat decode_step; discriminate.
Qed.

Lemma decode_size3 (c0 : ascii) (t0 : string) (r : Z) :
  utf8.DecodeRuneInString (String c0 t0) = (r, 3) ->
  exists c1 c2 t2, t0 = String c1 (String c2 t2) /\
    c0 <> newline /\ c1 <> newline /\ c2 <> newline /\
    forall t',
      utf8.DecodeRuneInString (String c0 (String c1 (String c2 t'))) = (r, 3).
Proof.
  unfold utf8.DecodeRuneInString.
  set (x := utf8.first (byte c0)).
  destruct (utf8.as_ <=? x) eqn:E; [discriminate|].
  cbv zeta.
  destruct (len (String c0 t0) <? Z.land x 7) eqn:El; [discriminate|].
  destruct t0 as [|c1 t1]; [discriminate|].
  destruct ((byte c1 <? fst (utf8.acceptRanges (Z.shiftr x 4)))
            || (snd (utf8.acceptRanges (Z.shiftr x 4)) <? byte c1)) eqn:Ea;
    [discriminate|].
  destruct (Z.land x 7 <=? 2) eqn:Es; [discriminate|].
  destruct t1 as [|c2 t2]; [discriminate|].
  destruct ((byte c2 <? utf8.locb) || (utf8.hicb <? byte c2)) eqn:Eb;
    [discriminate|].
  destruct (Z.land x 7 <=? 3) eqn:Es3.
  - intros H. injection H as <-.
    exists c1, c2, t2. split; [reflexivity|].
    split; [now apply first_newline|].
    split; [now apply accept_newline in Ea|].
    split; [now apply cont_newline|].
    intros t'.
    assert ((len (String c0 (String c1 (String c2 t'))) <? Z.land x 7) = false)
      as ->.
    { rewrite !len_String. pose proof (len_nonneg t'). lia. }
    now rewrite Ea, Eb.
  - repeat decode_step; discriminate.
Qed.

Lemma first_size_le4 (b : Z) : Z.land (utf8.first b) 7 <= 4.
Proof.
  unfold utf8.first.
  repeat match goal with |- context [if ?c then _ else _] => destruct c end;
    vm_compute; congruence.
Qed.

Lemma decode_size4 (c0 : ascii) (t0 : string) (r : Z) :
  utf8.DecodeRuneInString (String c0 t0) = (r, 4) ->
  exists c1 c2 c3 t3, t0 = String c1 (String c2 (String c3 t3)) /\
    c0 <> newline /\ c1 <> newline /\ c2 <> newline /\ c3 <> newline /\
    forall t',
      utf8.DecodeRuneInString
        (String c0 (String c1 (String c2 (String c3 t')))) = (r, 4).
Proof.
  unfold utf8.DecodeRuneInString.
  set (x := utf8.first (byte c0)).
  destruct (utf8.as_ <=? x) eqn:E; [discriminate|].
  cbv zeta.
  destruct (len (String c0 t0) <? Z.land x 7) eqn:El; [discriminate|].
  destruct t0 as [|c1 t1]; [discriminate|].
  destruct ((byte c1 <? fst (utf8.acceptRanges (Z.shiftr x 4)))
            || (snd (utf8.acceptRanges (Z.shiftr x 4)) <? byte c1)) eqn:Ea;
    [discriminate|].
  destruct (Z.land x 7 <=? 2) eqn:Es; [discriminate|].
  destruct t1 as [|c2 t2]; [discriminate|].
  destruct ((byte c2 <? utf8.locb) || (utf8.hicb <? byte c2)) eqn:Eb;
    [discriminate|].
  destruct (Z.land x 7 <=? 3) eqn:Es3; [discriminate|].
  destruct t2 as [|c3 t3]; [discriminate|].
  destruct ((byte c3 <? utf8.locb) || (utf8.hicb <? byte c3)) eqn:Ec;
    [discriminate|].
  intros H. injection H as <-.
  exists c1, c2, c3, t3. split; [reflexivity|].
  split; [now apply first_newline|].
  split; [now apply accept_newline in Ea|].
  split; [now apply cont_newline|].
  split; [now apply cont_newline|].
  intros t'.
  assert ((len (String c0 (String c1 (String c2 (String c3 t'))))
           <? Z.land x 7) = false) as ->.
  { rewrite !len_String. pose proof (len_nonneg t').
    pose proof (first_size_le4 (byte c0)) as Hx. fold x in Hx. lia. }
  now rewrite Ea, Eb, Ec.
Qed.

Lemma decode_size (s : string) (r size : Z) :
  utf8.DecodeRuneInString s = (r, size) ->
  (size = 0 /\ s = "") \/ (s <> "" /\ (size = 1 \/ size = 2 \/ size = 3 \/ size = 4)).
Proof.
  unfold utf8.DecodeRuneInString. destruct s as [|c0 t0].
  - intros H. injection H as <- <-. now left.
  - cbv zeta. intros H. right. split; [discriminate|].
    revert H. repeat decode_step; intros H; injection H as <- <-; lia.
Qed.

(** *** Strings of white space *)

Lemma skip_length (n : nat) (s : string) :
  String.length (skip n s) = (String.length s - n)%nat.
Proof.
  revert s. induction n as [|n IH]; intros [|c t]; simpl; try lia.
  apply IH.
Qed.

Lemma IsSpace_RuneError : unicode.IsSpace utf8.RuneError = false.
Proof. reflexivity. Qed.

Lemma IsSpace_ascii (b : Z) :
  0 <= b < 128 -> unicode.IsSpace b = strings.asciiSpace b.
Proof.
  intros Hb. unfold unicode.IsSpace, strings.asciiSpace.
  destruct ((0 <=? b) && (b <=? 255)) eqn:E; [|lia].
  assert ((b =? 133) = false) as -> by lia.
  assert ((b =? 160) = false) as -> by lia.
  now rewrite !orb_false_r.
Qed.

Lemma indexFunc_loop_spaces (fuel : nat) :
  forall (s : string) (i : Z),
    0 <= i -> (String.length s <= fuel)%nat ->
    strings.indexFunc_loop fuel s i unicode.IsSpace false = -1 ->
    spaces s.
Proof.
  induction fuel as [|fuel IH]; intros s i Hi Hlen.
  - destruct s; [constructor | simpl in Hlen; lia].
  - destruct s as [|c t]; [constructor|].
    cbn [strings.indexFunc_loop].
    destruct (utf8.DecodeRuneInString (String c t)) as [r size] eqn:Hd.
    destruct (unicode.IsSpace r) eqn:Hr; cbn [Bool.eqb]; [|lia].
    intros Hloop.
    destruct (decode_size _ _ _ Hd) as [[_ ?]|[_ Hsz]]; [discriminate|].
    apply (spaces_rune _ r size); [discriminate|assumption|assumption|].
    apply (IH _ (i + size)); [lia| |assumption].
    unfold slice_from. rewrite skip_length. simpl in *. lia.
Qed.

Lemma spaces_indexFunc_loop (s : string) :
  spaces s ->
  forall (fuel : nat) (i : Z),
    strings.indexFunc_loop fuel s i unicode.IsSpace false = -1.
Proof.
  induction 1 as [|s r size Hne Hd Hr _ IH]; intros fuel i.
  - destruct fuel; reflexivity.
  - destruct fuel as [|fuel]; [reflexivity|].
    destruct s as [|c t]; [congruence|].
    cbn [strings.indexFunc_loop]. rewrite Hd, Hr. cbn [Bool.eqb].
    apply IH.
Qed.

Lemma whitespaceOnly_spaces (s : string) : whitespaceOnly s <-> spaces s.
Proof.
  split.
  - apply indexFunc_loop_spaces; lia.
  - intros H. now apply spaces_indexFunc_loop.
Qed.

Lemma spaces_ascii_inv (c : ascii) (t : string) :
  byte c < 128 -> spaces (String c t) ->
  strings.asciiSpace (byte c) = true /\ spaces t.
Proof.
  intros Hc H. inversion H as [|s r size _ Hd Hr Ht]; subst.
  rewrite decode_ascii in Hd by assumption. injection Hd as <- <-.
  rewrite IsSpace_ascii in Hr by (pose proof (byte_range c); lia).
  split; assumption.
Qed.

Lemma spaces_ascii (c : ascii) (t : string) :
  byte c < 128 -> strings.asciiSpace (byte c) = true -> spaces t ->
  spaces (String c t).
Proof.
  intros Hc Hs Ht.
  apply (spaces_rune _ (byte c) 1); [discriminate| | |assumption].
  - now apply decode_ascii.
  - rewrite IsSpace_ascii by (pose proof (byte_range c); lia). assumption.
Qed.

Lemma trimStart_spaces (s : string) : spaces s -> spaces (strings.trimStart s).
Proof.
  induction s as [|c t IH]; intros H; [assumption|].
  cbn [strings.trimStart].
  destruct (byte c <? utf8.RuneSelf) eqn:E; [|assumption].
  destruct (strings.asciiSpace (byte c)) eqn:Ea; [|assumption].
  apply IH. apply (spaces_ascii_inv c t); [unfold utf8.RuneSelf in E; lia|assumption].
Qed.

Lemma trimStart_head (s : string) (c : ascii) (t : string) :
  strings.trimStart s = String c t ->
  (byte c <? utf8.RuneSelf) && strings.asciiSpace (byte c) = false.
Proof.
  induction s as [|c' t' IH]; [discriminate|].
  cbn [strings.trimStart].
  destruct (byte c' <? utf8.RuneSelf) eqn:E.
  - destruct (strings.asciiSpace (byte c')) eqn:Ea; [assumption|].
    intros H. injection H as -> ->. now rewrite E, Ea.
  - intros H. injection H as -> ->. now rewrite E.
Qed.

Lemma TrimSpace_spaces (s : string) : spaces s -> strings.TrimSpace s = "".
Proof.
  intros H. apply trimStart_spaces in H. unfold strings.TrimSpace.
  destruct (strings.trimStart s) as [|c t] eqn:Ht; [reflexivity|].
  apply trimStart_head in Ht.
  destruct (utf8.RuneSelf <=? byte c) eqn:E.
  - unfold strings.TrimFunc, strings.TrimLeftFunc.
    apply whitespaceOnly_spaces in H as ->. reflexivity.
  - assert (byte c < 128) as Hc by (unfold utf8.RuneSelf in E; lia).
    destruct (spaces_ascii_inv c t Hc H) as [Ha _].
    rewrite Ha, andb_true_r in Ht. unfold utf8.RuneSelf in Ht. lia.
Qed.

Lemma parseGroups_not_nil (group : string) : parseGroups group <> [].
Proof.
  unfold parseGroups. destruct (String.eqb group ""); [discriminate|].
  cbv zeta.
  destruct (appendTrimmed (strings.Split group comma) []); discriminate.
Qed.

Lemma Split_not_nil (s : string) (sep : ascii) : strings.Split s sep <> [].
Proof.
  induction s as [|c t IH]; [discriminate|].
  cbn [strings.Split]. destruct (Ascii.eqb c sep); [discriminate|].
  destruct (strings.Split t sep); [congruence|discriminate].
Qed.

Lemma Split_other (c sep : ascii) (t : string) :
  c <> sep ->
  exists h tl, strings.Split t sep = h :: tl /\
               strings.Split (String c t) sep = String c h :: tl.
Proof.
  intros Hc. cbn [strings.Split].
  apply Ascii.eqb_neq in Hc as ->.
  destruct (strings.Split t sep) as [|h tl] eqn:E.
  - now apply Split_not_nil in E.
  - now exists h, tl.
Qed.

Lemma Split_spaces (s : string) :
  spaces s -> Forall spaces (strings.Split s newline).
Proof.
  induction 1 as [|s r size Hne Hd Hr Ht IH].
  - repeat constructor.
  - destruct s as [|c0 t0]; [congruence|].
    destruct (decode_size _ _ _ Hd) as [[_ ?]|[_ [->|[->|[->| ->]]]]];
      [discriminate| | | |].
    + destruct (decode_size1 _ _ _ Hd) as [[-> Hc]| ->];
        [|rewrite IsSpace_RuneError in Hr; discriminate].
      rewrite IsSpace_ascii in Hr by (pose proof (byte_range c0); lia).
      change (slice_from (String c0 t0) 1) with t0 in *.
      destruct (ascii_dec c0 newline) as [->|Hn].
      * cbn [strings.Split]. rewrite Ascii.eqb_refl. constructor;
          [constructor|assumption].
      * destruct (Split_other c0 newline t0 Hn) as (h & tl & E1 & ->).
        rewrite E1 in IH. inversion IH; subst.
        constructor; [|assumption]. now apply spaces_ascii.
    + destruct (decode_size2 _ _ _ Hd) as (c1 & t1 & -> & H0 & H1 & Htail).
      change (slice_from (String c0 (String c1 t1)) 2) with t1 in *.
      destruct (Split_other c1 newline t1 H1) as (h & tl & E1 & E2).
      destruct (Split_other c0 newline (String c1 t1) H0) as (h' & tl' & E3 & ->).
      rewrite E2 in E3. injection E3 as <- <-.
      rewrite E1 in IH. inversion IH; subst.
      constructor; [|assumption].
      apply (spaces_rune _ r 2); [discriminate|apply Htail|assumption|assumption].
    + destruct (decode_size3 _ _ _ Hd)
        as (c1 & c2 & t2 & -> & H0 & H1 & H2 & Htail).
      change (slice_from (String c0 (String c1 (String c2 t2))) 3) with t2 in *.
      destruct (Split_other c2 newline t2 H2) as (h & tl & E1 & E2).
      destruct (Split_other c1 newline (String c2 t2) H1) as (h1 & tl1 & E3 & E4).
      destruct (Split_other c0 newline (String c1 (String c2 t2)) H0)
        as (h0 & tl0 & E5 & ->).
      rewrite E2 in E3. injection E3 as <- <-.
      rewrite E4 in E5. injection E5 as <- <-.
      rewrite E1 in IH. inversion IH; subst.
      constructor; [|assumption].
      apply (spaces_rune _ r 3); [discriminate|apply Htail|assumption|assumption].
    + destruct (decode_size4 _ _ _ Hd)
        as (c1 & c2 & c3 & t3 & -> & H0 & H1 & H2 & H3 & Htail).
      change (slice_from (String c0 (String c1 (String c2 (String c3 t3)))) 4)
        with t3 in *.
      destruct (Split_other c3 newline t3 H3) as (h & tl & E1 & E2).
      destruct (Split_other c2 newline (String c3 t3) H2) as (h2 & tl2 & E3 & E4).
      destruct (Split_other c1 newline (String c2 (String c3 t3)) H1)
        as (h1 & tl1 & E5 & E6).
      destruct (Split_other c0 newline (String c1 (String c2 (String c3 t3))) H0)
        as (h0 & tl0 & E7 & ->).
      rewrite E2 in E3. injection E3 as <- <-.
      rewrite E4 in E5. injection E5 as <- <-.
      rewrite E6 in E7. injection E7 as <- <-.
      rewrite E1 in IH. inversion IH; subst.
      constructor; [|assumption].
      apply (spaces_rune _ r 4); [discriminate|apply Htail|assumption|assumption].
Qed.

(** *** The secrets of a credential field *)

Lemma appendTrimmed_filter (parts acc : list string) :
  appendTrimmed parts acc
  = (acc ++ List.filter nonEmpty (map strings.TrimSpace parts))%list.
Proof.
  revert acc. induction parts as [|part rest IH]; intros acc.
  - cbn. now rewrite app_nil_r.
  - cbn [appendTrimmed map List.filter].
    destruct (nonEmpty (strings.TrimSpace part)).
    + rewrite IH, <- app_assoc. reflexivity.
    + apply IH.
Qed.

Lemma parseKeys_empty : parseKeys "" = [].
Proof. reflexivity. Qed.

Lemma secretSegments_empty : secretSegments "" = [].
Proof. reflexivity. Qed.

Lemma parseKeys_segments (key : string) :
  secretSegments key <> [] -> parseKeys key = secretSegments key.
Proof.
  intros Hne. unfold parseKeys.
  destruct (String.eqb key "") eqn:E.
  - apply String.eqb_eq in E as ->. now rewrite secretSegments_empty in Hne.
  - cbv zeta. rewrite appendTrimmed_filter. cbn [app]. fold (secretSegments key).
    destruct (secretSegments key); [congruence|reflexivity].
Qed.

Lemma parseKeys_fallback (key : string) :
  key <> "" -> secretSegments key = [] -> parseKeys key = [key].
Proof.
  intros Hne Hs. unfold parseKeys.
  apply String.eqb_neq in Hne as ->. cbv zeta.
  rewrite appendTrimmed_filter. cbn [app]. fold (secretSegments key).
  now rewrite Hs.
Qed.

Lemma secretSegments_whitespace (key : string) :
  whitespaceOnly key -> secretSegments key = [].
Proof.
  intros H. apply whitespaceOnly_spaces, Split_spaces in H.
  unfold secretSegments. induction H as [|line rest Hl _ IH]; [reflexivity|].
  cbn [map List.filter]. now rewrite (TrimSpace_spaces _ Hl).
Qed.

Lemma parseKeys_length (key : string) :
  length (parseKeys key)
  = if String.eqb key "" then 0%nat
    else Nat.max 1 (length (secretSegments key)).
Proof.
  destruct (String.eqb key "") eqn:E.
  - apply String.eqb_eq in E as ->. reflexivity.
  - apply String.eqb_neq in E.
    destruct (secretSegments key) as [|k ks] eqn:Hs.
    + now rewrite parseKeys_fallback.
    + rewrite parseKeys_segments, !Hs by congruence. cbn [length]. lia.
Qed.

(** *** The warnings of a channel *)

Lemma addWarnings_nil (r : ExportResult.t) : addWarnings r [] = r.
Proof. destruct r. unfold addWarnings. cbn. now rewrite app_nil_r. Qed.

Lemma addWarnings_app (r : ExportResult.t) (a b : list string) :
  addWarnings (addWarnings r a) b = addWarnings r (a ++ b)%list.
Proof. unfold addWarnings. cbn. now rewrite app_assoc. Qed.

Lemma when_AddWarning (c : bool) (w : string) (r : ExportResult.t) :
  when c (AddWarning w) r = (tt, addWarnings r (warningIf c w)).
Proof.
  destruct c; cbn; [reflexivity|]. now rewrite addWarnings_nil.
Qed.

Lemma checkUnmappableFields_spec (ch : Channel.t) (r : ExportResult.t) :
  checkUnmappableFields ch r = (tt, addWarnings r (fieldWarnings ch)).
Proof.
  unfold checkUnmappableFields, bind, fieldWarnings.
  rewrite !when_AddWarning, !addWarnings_app. reflexivity.
Qed.

Lemma map_APIKey_imap (f : nat -> string -> Provider.t) (keys : list string) :
  (forall i key, Provider.APIKey (f i key) = key) ->
  map Provider.APIKey (imap f keys) = keys.
Proof.
  revert f. induction keys as [|key rest IH]; intros f Hf; [reflexivity|].
  rewrite imap_cons. cbn [map]. rewrite Hf. f_equal.
  apply IH. intros i k. apply Hf.
Qed.

Lemma keyProvider_APIKey ch m pt bu ms pg gs w pr st ab orig i key :
  Provider.APIKey (keyProvider ch m pt bu ms pg gs w pr st ab orig i key) = key.
Proof. unfold keyProvider. destruct m; reflexivity. Qed.

Lemma int_of_uint_small (u : Z) : 0 <= u < two63 -> int_of_uint u = u.
Proof.
  intros Hu. unfold int_of_uint, two63, two64 in *.
  rewrite Z.mod_small by lia.
  destruct (u <? 2 ^ 63) eqn:E; lia.
Qed.

Lemma append_String (c : ascii) (a b : string) :
  String c a ++ b = String c (a ++ b).
Proof. reflexivity. Qed.

Lemma append_assoc (a b c : string) : (a ++ b) ++ c = a ++ (b ++ c).
Proof.
  induction a as [|x a IH]; [reflexivity|].
  rewrite !append_String. now f_equal.
Qed.

Lemma append_inv_head (p a b : string) : p ++ a = p ++ b -> a = b.
Proof.
  induction p as [|c p IH]; [trivial|].
  rewrite !append_String. intros H. injection H as H. now apply IH.
Qed.

Lemma In_warningIf (c : bool) (w x : string) : In w (warningIf c x) -> w = x.
Proof. destruct c; cbn; intuition. Qed.

Lemma unknownTypeWarning_fresh (ch : Channel.t) :
  ~ In (unknownTypeWarning ch) (fieldWarnings ch).
Proof.
  unfold fieldWarnings. rewrite !in_app_iff.
  intros H.
  repeat match goal with
  | H : _ \/ _ |- _ => destruct H as [H|H]
  end;
  apply In_warningIf in H;
  apply append_inv_head in H; rewrite !append_String in H; discriminate.
Qed.

Lemma ToProviderType_unmapped (t : Z) :
  channelTypeMapping !! t = None -> ToProviderType t = ("custom", false).
Proof. unfold ToProviderType. now intros ->. Qed.

(** *** Channels to providers *)

Section Channels.

Variable json_Marshal : Channel.t -> option string.

Lemma channelToProviders_snd (ch : Channel.t) (r : ExportResult.t) :
  snd (channelToProviders json_Marshal ch r)
  = addWarnings r
      (warningIf (negb (snd (MapChannelType (Channel.Type_ ch))))
         (unknownTypeWarning ch) ++ fieldWarnings ch)%list.
Proof.
  unfold channelToProviders.
  destruct (MapChannelType (Channel.Type_ ch)) as [providerType typeOK].
  unfold bind. rewrite when_AddWarning, checkUnmappableFields_spec.
  cbn. now rewrite addWarnings_app.
Qed.

Lemma channelToProviders_fst (ch : Channel.t) (r : ExportResult.t) :
  fst (channelToProviders json_Marshal ch r)
  = imap
      (keyProvider ch (1 <? length (parseKeys (Channel.Key ch)))%nat
         (fst (MapChannelType (Channel.Type_ ch)))
         (match Channel.BaseURL ch with Some u => u | None => "" end)
         (parseModels (Channel.Models ch))
         (hd "" (parseGroups (Channel.Group ch)))
         (parseGroups (Channel.Group ch))
         (if isPositive (Channel.Weight ch)
          then int_of_uint (deref (Channel.Weight ch))
          else if isPositive (Channel.Priority ch)
          then int_of_int64 (deref (Channel.Priority ch))
          else 1)
         (if isPositive (Channel.Priority ch)
          then int_of_int64 (deref (Channel.Priority ch))
          else 0)
         (MapChannelStatus (Channel.Status ch))
         (match Channel.AutoBan ch with Some a => a =? 1 | None => true end)
         (createOriginalBackup json_Marshal ch))
      (parseKeys (Channel.Key ch)).
Proof.
  unfold channelToProviders.
  destruct (MapChannelType (Channel.Type_ ch)) as [providerType typeOK].
  unfold bind. rewrite when_AddWarning, checkUnmappableFields_spec.
  reflexivity.
Qed.

Lemma channelToProviders_length (ch : Channel.t) (r : ExportResult.t) :
  length (fst (channelToProviders json_Marshal ch r))
  = length (parseKeys (Channel.Key ch)).
Proof. rewrite channelToProviders_fst. apply length_imap. Qed.

Lemma channelToProviders_lookup (ch : Channel.t) (r : ExportResult.t)
  (i : nat) (p : Provider.t) :
  fst (channelToProviders json_Marshal ch r) !! i = Some p ->
  exists key,
    parseKeys (Channel.Key ch) !! i = Some key /\
    Provider.APIKey p = key /\
    Provider.Type_ p = fst (MapChannelType (Channel.Type_ ch)) /\
    Provider.Name p
    = (if (1 <? length (parseKeys (Channel.Key ch)))%nat && (0 <? i)%nat
       then Channel.Name ch ++ "-" ++ itoa (Z.of_nat i + 1)
       else Channel.Name ch) /\
    Provider.IsMultiKey p = (1 <? length (parseKeys (Channel.Key ch)))%nat /\
    Provider.MultiKeyIndex p
    = (if (1 <? length (parseKeys (Channel.Key ch)))%nat
       then Z.of_nat i + 1 else 0) /\
    Provider.OriginalName p
    = (if (1 <? length (parseKeys (Channel.Key ch)))%nat
       then Channel.Name ch else "") /\
    Provider.Weight p
    = (if isPositive (Channel.Weight ch)
       then int_of_uint (deref (Channel.Weight ch))
       else if isPositive (Channel.Priority ch)
       then int_of_int64 (deref (Channel.Priority ch))
       else 1) /\
    Provider.Priority p
    = (if isPositive (Channel.Priority ch)
       then int_of_int64 (deref (Channel.Priority ch))
       else 0).
Proof.
  rewrite channelToProviders_fst, list_lookup_imap.
  destruct (parseKeys (Channel.Key ch) !! i) as [key|] eqn:Hk; [|discriminate].
  cbn [fmap option_fmap option_map]. intros H.
  apply (inj Some) in H. subst p.
  exists key. split; [reflexivity|].
  unfold keyProvider.
  destruct (1 <? length (parseKeys (Channel.Key ch)))%nat;
    cbn [andb Provider.set_OriginalName Provider.set_MultiKeyIndex
         Provider.APIKey Provider.Type_ Provider.Name Provider.IsMultiKey
         Provider.MultiKeyIndex Provider.OriginalName Provider.Weight
         Provider.Priority Provider.OriginalID Provider.BaseURL
         Provider.Models Provider.PrimaryGroup Provider.AllGroups
         Provider.Status Provider.AutoBan Provider.Original];
    repeat split.
Qed.

Lemma channelToProviders_keys (ch : Channel.t) (r : ExportResult.t) :
  map Provider.APIKey (fst (channelToProviders json_Marshal ch r))
  = parseKeys (Channel.Key ch).
Proof.
  rewrite channelToProviders_fst. apply map_APIKey_imap.
  intros i key. apply keyProvider_APIKey.
Qed.

(** C1 (as amended): a channel whose credential field is not empty and
    holds white space only (spaces, tabs, newlines, any Unicode white space)
    yields exactly one Provider, whose api_key is the field as it is,
    untrimmed; a channel whose credential field is the empty string yields
    no Provider. *)
Theorem C1_whitespace_credential (ch : Channel.t) (r : ExportResult.t) :
  (Channel.Key ch <> "" -> whitespaceOnly (Channel.Key ch) ->
   exists p, fst (channelToProviders json_Marshal ch r) = [p]
             /\ Provider.APIKey p = Channel.Key ch)
  /\ (Channel.Key ch = "" -> fst (channelToProviders json_Marshal ch r) = []).
Proof.
  split.
  - intros Hne Hws.
    pose proof (channelToProviders_keys ch r) as Hk.
    rewrite (parseKeys_fallback _ Hne (secretSegments_whitespace _ Hws)) in Hk.
    destruct (fst (channelToProviders json_Marshal ch r)) as [|p [|q l]];
      try discriminate.
    exists p. split; [reflexivity|]. now injection Hk.
  - intros He.
    pose proof (channelToProviders_length ch r) as Hl.
    rewrite He, parseKeys_empty in Hl.
    now destruct (fst (channelToProviders json_Marshal ch r)).
Qed.

(** C2: a channel whose credential field splits (on newlines, each line
    trimmed, empty lines dropped) into k >= 1 segments yields exactly k
    Providers, whose api_keys are the segments in order; the first keeps the
    name of the channel, and when k > 1 the i-th one (counted from 1), for
    i > 1, is named "<name>-<i>". *)
Theorem C2_one_provider_per_segment (ch : Channel.t) (r : ExportResult.t)
  (k : nat) :
  length (secretSegments (Channel.Key ch)) = k -> (1 <= k)%nat ->
  let providers := fst (channelToProviders json_Marshal ch r) in
  length providers = k
  /\ map Provider.APIKey providers = secretSegments (Channel.Key ch)
  /\ (exists p, providers !! 0%nat = Some p
                /\ Provider.Name p = Channel.Name ch)
  /\ (forall i : nat, (1 < i <= k)%nat ->
      exists p, providers !! (i - 1)%nat = Some p
                /\ Provider.Name p = Channel.Name ch ++ "-" ++ itoa (Z.of_nat i)).
Proof.
  intros Hk Hk1 providers.
  assert (parseKeys (Channel.Key ch) = secretSegments (Channel.Key ch)) as Hp.
  { apply parseKeys_segments. intros E. rewrite E in Hk. cbn in Hk. lia. }
  assert (length providers = k) as Hlen.
  { unfold providers. now rewrite channelToProviders_length, Hp. }
  split; [assumption|].
  split; [unfold providers; now rewrite channelToProviders_keys|].
  split.
  - destruct (lookup_lt_is_Some_2 providers 0%nat) as [p Hp0]; [lia|].
    exists p. split; [assumption|].
    destruct (channelToProviders_lookup _ _ _ _ Hp0)
      as (key & _ & _ & _ & Hn & _).
    rewrite Hn. cbn [Nat.ltb Nat.leb andb]. now rewrite andb_false_r.
  - intros i Hi.
    destruct (lookup_lt_is_Some_2 providers (i - 1)%nat) as [p Hpi]; [lia|].
    exists p. split; [assumption|].
    destruct (channelToProviders_lookup _ _ _ _ Hpi)
      as (key & _ & _ & _ & Hn & _).
    rewrite Hn, Hp, Hk.
    assert ((1 <? k)%nat = true) as -> by (apply Nat.ltb_lt; lia).
    assert ((0 <? i - 1)%nat = true) as -> by (apply Nat.ltb_lt; lia).
    cbn [andb]. do 3 f_equal. lia.
Qed.

(** C7: every Provider of a channel has is_multi_key set exactly when the
    credential field of the channel gave more than one secret;
    multi_key_index is set (to the position of the Provider, counted from 1)
    only when is_multi_key is; the Provider of a channel with a single
    secret has is_multi_key false, multi_key_index 0 and original_name
    empty. *)
Theorem C7_multi_key_flags (ch : Channel.t) (r : ExportResult.t)
  (i : nat) (p : Provider.t) :
  fst (channelToProviders json_Marshal ch r) !! i = Some p ->
  let secrets := parseKeys (Channel.Key ch) in
  (Provider.IsMultiKey p = true <-> (1 < length secrets)%nat)
  /\ (Provider.MultiKeyIndex p <> 0 -> Provider.IsMultiKey p = true)
  /\ (Provider.IsMultiKey p = true ->
      Provider.MultiKeyIndex p = Z.of_nat i + 1)
  /\ (length secrets = 1%nat ->
      Provider.IsMultiKey p = false /\ Provider.MultiKeyIndex p = 0
      /\ Provider.OriginalName p = "").
Proof.
  intros Hp secrets.
  destruct (channelToProviders_lookup _ _ _ _ Hp)
    as (key & _ & _ & _ & _ & Hm & Hi & Ho & _).
  fold secrets in Hm, Hi, Ho.
  rewrite Hm, Hi, Ho.
  destruct (1 <? length secrets)%nat eqn:E.
  - apply Nat.ltb_lt in E. repeat split; try lia; try congruence.
  - apply Nat.ltb_ge in E. repeat split; try lia; try congruence.
Qed.


(** C6 (as amended): the mapper of channel kinds returns a provider type
    for every integer; for a kind that is not in the table it returns
    "custom" with the boolean false, and the engine then appends one
    warning,
    "Channel '<name>' (ID=<id>) has unknown type <kind>, mapped to 'custom'",
    before the warnings of the unmappable fields, none of which is that
    warning. When the credential field of the channel is not empty its
    Providers are emitted all the same: there is one per secret, so at least
    one, the first under the name of the channel, and each has the type
    "custom". When the credential field is empty the warning is appended
    and no Provider is emitted. *)
Theorem C6_unknown_kind_is_custom (t : Z) :
  (exists (providerType : string) (ok : bool),
      MapChannelType t = (providerType, ok))
  /\ (channelTypeMapping !! t = None ->
      MapChannelType t = ("custom", false)
      /\ forall (ch : Channel.t) (r : ExportResult.t),
          Channel.Type_ ch = t ->
          let out := channelToProviders json_Marshal ch r in
          ExportResult.Warnings (snd out)
          = (ExportResult.Warnings r
             ++ [unknownTypeWarning ch] ++ fieldWarnings ch)%list
          /\ unknownTypeWarning ch
             = "Channel '" ++ Channel.Name ch ++ "' (ID="
               ++ itoa (Channel.ID ch) ++ ") has unknown type " ++ itoa t
               ++ ", mapped to 'custom'"
          /\ ~ In (unknownTypeWarning ch) (fieldWarnings ch)
          /\ length (fst out) = length (parseKeys (Channel.Key ch))
          /\ Forall (fun p => Provider.Type_ p = "custom") (fst out)
          /\ (Channel.Key ch <> "" ->
              length (fst out)
              = Nat.max 1 (length (secretSegments (Channel.Key ch)))
              /\ exists p,
                  fst out !! 0%nat = Some p
                  /\ Provider.Type_ p = "custom"
                  /\ Provider.Name p = Channel.Name ch)
          /\ (Channel.Key ch = "" -> fst out = [])).
Proof.
  split.
  - unfold MapChannelType, ToProviderType.
    destruct (channelTypeMapping !! t); eauto.
  - intros Hnone. split; [now apply ToProviderType_unmapped|].
    intros ch r Ht out. subst out.
    rewrite channelToProviders_snd, channelToProviders_length.
    unfold MapChannelType. rewrite Ht, (ToProviderType_unmapped _ Hnone).
    split; [reflexivity|].
    split.
    { unfold unknownTypeWarning, channelPrefix. rewrite Ht.
      now rewrite !append_assoc. }
    split; [apply unknownTypeWarning_fresh|].
    split; [reflexivity|].
    assert (forall i p,
               fst (channelToProviders json_Marshal ch r) !! i = Some p ->
               Provider.Type_ p = "custom") as Hcustom.
    { intros i p Hp.
      destruct (channelToProviders_lookup _ _ _ _ Hp)
        as (key & _ & _ & Hty & _).
      rewrite Hty. unfold MapChannelType.
      now rewrite Ht, (ToProviderType_unmapped _ Hnone). }
    split; [apply Forall_lookup_2; exact Hcustom|].
    split.
    + intros Hne.
      pose proof (parseKeys_length (Channel.Key ch)) as Hlen.
      apply String.eqb_neq in Hne. rewrite Hne in Hlen.
      split; [exact Hlen|].
      destruct (lookup_lt_is_Some_2
                  (fst (channelToProviders json_Marshal ch r)) 0%nat)
        as [p Hp].
      { rewrite channelToProviders_length, Hlen. lia. }
      exists p. split; [exact Hp|]. split; [exact (Hcustom _ _ Hp)|].
      destruct (channelToProviders_lookup _ _ _ _ Hp)
        as (key & _ & _ & _ & Hname & _).
      rewrite Hname, andb_false_r. reflexivity.
    + intros Hempty.
      apply length_zero_iff_nil.
      now rewrite channelToProviders_length, Hempty, parseKeys_empty.
Qed.

(** C8 (as amended): the weight of every Provider of a channel is the weight
    field of the channel converted to Go's signed int when the field is
    present and > 0 (the same number when it is below 2^63), else the
    priority field when that is present and > 0, else 1; its priority is
    the priority field when present and > 0, else 0, whatever the weight
    is. *)
Theorem C8_weight_and_priority (ch : Channel.t) (r : ExportResult.t)
  (i : nat) (p : Provider.t) :
  fst (channelToProviders json_Marshal ch r) !! i = Some p ->
  (forall w, Channel.Weight ch = Some w -> 0 < w ->
     Provider.Weight p = int_of_uint w
     /\ (w < two63 -> Provider.Weight p = w))
  /\ (isPositive (Channel.Weight ch) = false ->
      forall pr, Channel.Priority ch = Some pr -> 0 < pr ->
        Provider.Weight p = pr)
  /\ (isPositive (Channel.Weight ch) = false ->
      isPositive (Channel.Priority ch) = false -> Provider.Weight p = 1)
  /\ (forall pr, Channel.Priority ch = Some pr -> 0 < pr ->
        Provider.Priority p = pr)
  /\ (isPositive (Channel.Priority ch) = false -> Provider.Priority p = 0).
Proof.
  intros Hp.
  destruct (channelToProviders_lookup _ _ _ _ Hp)
    as (key & _ & _ & _ & _ & _ & _ & _ & Hw & Hpr).
  rewrite Hw, Hpr. clear Hw Hpr Hp.
  split; [|split; [|split; [|split]]].
  - intros w -> Hw0. cbn [isPositive deref].
    assert ((0 <? w) = true) as -> by lia.
    split; [reflexivity|]. intros Hlt. apply int_of_uint_small. lia.
  - intros -> pr -> Hpr0. cbn [isPositive deref].
    now assert ((0 <? pr) = true) as -> by lia.
  - now intros -> ->.
  - intros pr -> Hpr0. cbn [isPositive deref].
    now assert ((0 <? pr) = true) as -> by lia.
  - now intros ->.
Qed.

End Channels.

(** *** Tokens to keys *)

(** C4: the Key of a token has quota_limit and quota_used set, to the
    remaining and the used quota of the token, exactly when the token is not
    flagged unlimited; both are unset when it is. *)
Theorem C4_quota_iff_not_unlimited (token : Token.t) (masterRef : string) :
  let key := tokenToKey token masterRef in
  (if Token.UnlimitedQuota token
   then Key.QuotaLimit key = None /\ Key.QuotaUsed key = None
   else Key.QuotaLimit key = Some (int64_of_int (Token.RemainQuota token))
        /\ Key.QuotaUsed key = Some (int64_of_int (Token.UsedQuota token)))
  /\ (is_Some (Key.QuotaLimit key) /\ is_Some (Key.QuotaUsed key)
      <-> Token.UnlimitedQuota token = false)
  /\ Key.UnlimitedQuota key = Token.UnlimitedQuota token.
Proof.
  unfold tokenToKey.
  destruct (Token.ModelLimitsEnabled token && nonEmpty (Token.ModelLimits token));
  destruct ((0 <? Token.ExpiredTime token)
            && negb (Token.ExpiredTime token =? -1));
  destruct (Token.AllowIPs token) as [ips|];
  try destruct (nonEmpty ips);
  destruct (Token.UnlimitedQuota token);
  cbn [negb Key.set_ModelLimits Key.set_ExpiresAt Key.set_AllowIPs
       Key.set_QuotaLimit Key.set_QuotaUsed Key.QuotaLimit Key.QuotaUsed
       Key.UnlimitedQuota Key.MasterRef Key.OriginalToken Key.Group
       Key.Status Key.Scopes Key.Namespaces Key.ModelLimitsEnabled
       Key.ModelLimits Key.ExpiresAt Key.AllowIPs Key.OriginalID
       Key.TokenPlaintextAvailable];
  (split; [split; reflexivity|]); (split; [|reflexivity]);
  (split; [intros [[? H] _]; congruence || reflexivity | try discriminate;
           intros _; split; eexists; reflexivity]).
Qed.

Lemma tokenToKey_ExpiresAt (token : Token.t) (masterRef : string) :
  Key.ExpiresAt (tokenToKey token masterRef)
  = if (0 <? Token.ExpiredTime token) && negb (Token.ExpiredTime token =? -1)
    then TimestampToTime (Token.ExpiredTime token)
    else None.
Proof.
  unfold tokenToKey.
  destruct (Token.ModelLimitsEnabled token && nonEmpty (Token.ModelLimits token));
  destruct ((0 <? Token.ExpiredTime token)
            && negb (Token.ExpiredTime token =? -1));
  destruct (Token.AllowIPs token) as [ips|];
  try destruct (nonEmpty ips);
  destruct (Token.UnlimitedQuota token);
  reflexivity.
Qed.

(** C5: the Key of a token whose expired_time is -1 or 0 has no expiry; the
    Key of a token whose expired_time is positive expires at the instant
    that many seconds after the epoch. *)
Theorem C5_expiry (token : Token.t) (masterRef : string) :
  let key := tokenToKey token masterRef in
  (Token.ExpiredTime token = -1 \/ Token.ExpiredTime token = 0 ->
   Key.ExpiresAt key = None)
  /\ (0 < Token.ExpiredTime token ->
      Key.ExpiresAt key = Some (Unix (Token.ExpiredTime token) 0)).
Proof.
  cbv zeta. rewrite tokenToKey_ExpiresAt. split.
  - intros [-> | ->]; reflexivity.
  - intros Hpos. unfold TimestampToTime.
    assert ((0 <? Token.ExpiredTime token) = true) as -> by lia.
    assert ((Token.ExpiredTime token =? -1) = false) as -> by lia.
    assert ((Token.ExpiredTime token =? 0) = false) as -> by lia.
    reflexivity.
Qed.

(** A negative expired_time other than -1 gives no expiry either. *)
Lemma tokenToKey_negative_expiry (token : Token.t) (masterRef : string) :
  Token.ExpiredTime token <= 0 ->
  Key.ExpiresAt (tokenToKey token masterRef) = None.
Proof.
  intros Hneg. rewrite tokenToKey_ExpiresAt.
  now assert ((0 <? Token.ExpiredTime token) = false) as -> by lia.
Qed.

(** The accumulator only grows. *)

Lemma extends_refl (r : ExportResult.t) : extends r r.
Proof. unfold extends. repeat split; reflexivity. Qed.

Lemma extends_trans (r1 r2 r3 : ExportResult.t) :
  extends r1 r2 -> extends r2 r3 -> extends r1 r3.
Proof.
  unfold extends.
  intros (Hv & Hs & Hp & Hm & Hk & Hb & Hw) (Hv' & Hs' & Hp' & Hm' & Hk' & Hb' & Hw').
  repeat split; try congruence; etrans; eassumption.
Qed.

Lemma extends_AddWarning (r : ExportResult.t) (w : string) :
  extends r (schema.AddWarning r w).
Proof.
  unfold extends, schema.AddWarning. cbn.
  repeat split; try reflexivity. now apply prefix_app_r.
Qed.

Lemma extends_AddMaster (r : ExportResult.t) (m : Master.t) :
  extends r (schema.AddMaster r m).
Proof.
  unfold extends, schema.AddMaster. cbn.
  repeat split; try reflexivity. now apply prefix_app_r.
Qed.

Lemma extends_AddKey (r : ExportResult.t) (k : Key.t) :
  extends r (schema.AddKey r k).
Proof.
  unfold extends, schema.AddKey. cbn.
  repeat split; try reflexivity. now apply prefix_app_r.
Qed.

Lemma extends_for_each {A : Type} (body : A -> M unit) (l : list A) :
  (forall x r, extends r (snd (body x r))) ->
  forall r, extends r (snd (for_each l body r)).
Proof.
  intros Hbody. induction l as [|x rest IH]; intros r.
  - apply extends_refl.
  - cbn [for_each]. unfold bind.
    pose proof (Hbody x r) as Hx.
    destruct (body x r) as [[] r1]. cbn [snd] in Hx.
    eapply extends_trans; [exact Hx|apply IH].
Qed.

(** The export does not read the clock again: the instant of the export
    goes through every step untouched. *)

Lemma clockFree_ret {A : Type} (a : A) : clockFree (ret a).
Proof. intros t r. reflexivity. Qed.

Lemma clockFree_bind {A B : Type} (m : M A) (k : A -> M B) :
  clockFree m -> (forall a, clockFree (k a)) -> clockFree (bind m k).
Proof.
  intros Hm Hk t r. unfold bind. rewrite Hm.
  destruct (m r) as [a r1]. cbn [fst snd]. apply Hk.
Qed.

Lemma clockFree_when (c : bool) (body : M unit) :
  clockFree body -> clockFree (when c body).
Proof. destruct c; [trivial|intros _; apply clockFree_ret]. Qed.

Lemma clockFree_for_each {A : Type} (l : list A) (body : A -> M unit) :
  (forall x, clockFree (body x)) -> clockFree (for_each l body).
Proof.
  intros Hbody. induction l as [|x rest IH]; [apply clockFree_ret|].
  cbn [for_each]. apply clockFree_bind; [apply Hbody|intros _; apply IH].
Qed.

Lemma clockFree_AddWarning (w : string) : clockFree (AddWarning w).
Proof. intros t r. reflexivity. Qed.

Lemma clockFree_AddProvider (p : Provider.t) : clockFree (AddProvider p).
Proof. intros t r. reflexivity. Qed.

Lemma clockFree_AddMaster (m : Master.t) : clockFree (AddMaster m).
Proof. intros t r. reflexivity. Qed.

Lemma clockFree_AddKey (k : Key.t) : clockFree (AddKey k).
Proof. intros t r. reflexivity. Qed.

Lemma clockFree_AddBinding (b : Binding.t) : clockFree (AddBinding b).
Proof. intros t r. reflexivity. Qed.

Lemma clockFree_checkUnmappableFields (ch : Channel.t) :
  clockFree (checkUnmappableFields ch).
Proof.
  unfold checkUnmappableFields.
  repeat (apply clockFree_bind; [|intros _]);
    apply clockFree_when, clockFree_AddWarning.
Qed.

Section ExportPass.

Variable json_Marshal : Channel.t -> option string.
Variable connector : Connector.t.
Variable config : ExporterConfig.t.

Lemma clockFree_channelToProviders (ch : Channel.t) :
  clockFree (channelToProviders json_Marshal ch).
Proof.
  unfold channelToProviders.
  destruct (MapChannelType (Channel.Type_ ch)) as [providerType typeOK].
  apply clockFree_bind;
    [apply clockFree_when, clockFree_AddWarning|intros _].
  apply clockFree_bind; [apply clockFree_checkUnmappableFields|intros _].
  apply clockFree_ret.
Qed.

Lemma clockFree_exportChannels :
  clockFree (exportChannels json_Marshal connector).
Proof.
  unfold exportChannels.
  destruct (Connector.GetAllChannels connector) as [channels|err];
    [|apply clockFree_ret].
  apply clockFree_bind; [|intros _; apply clockFree_ret].
  apply clockFree_for_each. intros ch.
  apply clockFree_bind; [apply clockFree_channelToProviders|intros providers].
  apply clockFree_for_each, clockFree_AddProvider.
Qed.

Lemma clockFree_usersLoop (users : list User.t) :
  forall masterMap, clockFree (usersLoop connector users masterMap).
Proof.
  induction users as [|user rest IH]; intros masterMap;
    [apply clockFree_ret|].
  cbn [usersLoop].
  apply clockFree_bind; [apply clockFree_AddMaster|intros _].
  destruct (Connector.GetTokensByUserID connector (User.ID user))
    as [tokens|err].
  - apply clockFree_bind; [|intros _; apply IH].
    apply clockFree_for_each. intros token. apply clockFree_AddKey.
  - apply clockFree_bind; [apply clockFree_AddWarning|intros _; apply IH].
Qed.

Lemma clockFree_exportUsersAndTokens :
  clockFree (exportUsersAndTokens connector).
Proof.
  unfold exportUsersAndTokens.
  destruct (Connector.GetUsersWithTokens connector) as [users|err];
    [|apply clockFree_ret].
  apply clockFree_bind; [apply clockFree_usersLoop|intros _].
  apply clockFree_ret.
Qed.

Lemma clockFree_exportAbilities : clockFree (exportAbilities connector).
Proof.
  unfold exportAbilities.
  destruct (Connector.GetAllAbilities connector) as [abilities|err];
    [|apply clockFree_ret].
  apply clockFree_bind; [|intros _; apply clockFree_ret].
  apply clockFree_for_each. intros ab. apply clockFree_AddBinding.
Qed.

Lemma Export_setExportedAt (t : Time) (r : ExportResult.t) :
  fst (Export json_Marshal connector config (setExportedAt t r))
  = mapResult (setExportedAt t) (fst (Export json_Marshal connector config r)).
Proof.
  unfold Export, bind.
  rewrite clockFree_exportChannels.
  destruct (exportChannels json_Marshal connector r) as [[err|] r1];
    cbn [fst snd]; [reflexivity|].
  assert (clockFree (if ExporterConfig.IncludeTokens config
                     then exportUsersAndTokens connector else ret None)) as H2.
  { destruct (ExporterConfig.IncludeTokens config);
      [apply clockFree_exportUsersAndTokens|apply clockFree_ret]. }
  rewrite H2.
  destruct ((if ExporterConfig.IncludeTokens config
             then exportUsersAndTokens connector else ret None) r1)
    as [[err|] r2]; cbn [fst snd]; [reflexivity|].
  assert (clockFree (if ExporterConfig.IncludeAbilities config
                     then exportAbilities connector else ret None)) as H3.
  { destruct (ExporterConfig.IncludeAbilities config);
      [apply clockFree_exportAbilities|apply clockFree_ret]. }
  rewrite H3.
  destruct ((if ExporterConfig.IncludeAbilities config
             then exportAbilities connector else ret None) r2)
    as [[err|] r3]; reflexivity.
Qed.

Lemma usersLoop_extends (users : list User.t) :
  forall masterMap r, extends r (snd (usersLoop connector users masterMap r)).
Proof.
  induction users as [|user rest IH]; intros masterMap r;
    [apply extends_refl|].
  cbn [usersLoop]. unfold bind, AddMaster.
  eapply extends_trans; [apply (extends_AddMaster r (userToMaster user))|].
  destruct (Connector.GetTokensByUserID connector (User.ID user))
    as [tokens|err].
  - pose proof (extends_for_each
                  (fun token => AddKey (tokenToKey token
                                          (Master.Name (userToMaster user))))
                  tokens (fun k r => extends_AddKey r _)
                  (schema.AddMaster r (userToMaster user))) as Hk.
    destruct (for_each tokens _ (schema.AddMaster r (userToMaster user)))
      as [[] r1].
    eapply extends_trans; [exact Hk|apply IH].
  - unfold AddWarning.
    eapply extends_trans; [apply extends_AddWarning|apply IH].
Qed.

Lemma exportChannels_Ok (channels : list Channel.t) (r : ExportResult.t) :
  Connector.GetAllChannels connector = Ok channels ->
  fst (exportChannels json_Marshal connector r) = None.
Proof.
  intros Hc. unfold exportChannels. rewrite Hc. unfold bind at 1.
  now destruct (for_each channels _ r).
Qed.

Lemma exportUsersAndTokens_Ok (users : list User.t) (r : ExportResult.t) :
  Connector.GetUsersWithTokens connector = Ok users ->
  fst (exportUsersAndTokens connector r) = None.
Proof.
  intros Hu. unfold exportUsersAndTokens. rewrite Hu. unfold bind.
  now destruct (usersLoop connector users ∅ r).
Qed.

Lemma exportAbilities_Ok (abilities : list Ability.t) (r : ExportResult.t) :
  Connector.GetAllAbilities connector = Ok abilities ->
  fst (exportAbilities connector r) = None.
Proof.
  intros Ha. unfold exportAbilities. rewrite Ha. unfold bind.
  now destruct (for_each abilities _ r).
Qed.

Lemma Export_Ok (r : ExportResult.t) :
  (exists channels, Connector.GetAllChannels connector = Ok channels) ->
  (ExporterConfig.IncludeTokens config = true ->
   exists users, Connector.GetUsersWithTokens connector = Ok users) ->
  (ExporterConfig.IncludeAbilities config = true ->
   exists abilities, Connector.GetAllAbilities connector = Ok abilities) ->
  exists res, Export json_Marshal connector config r = (Ok res, res).
Proof.
  intros [channels Hc] Hu Ha. unfold Export, bind.
  pose proof (exportChannels_Ok channels r Hc) as H1.
  destruct (exportChannels json_Marshal connector r) as [a r1].
  cbn [fst] in H1. subst a.
  assert (fst ((if ExporterConfig.IncludeTokens config
                then exportUsersAndTokens connector else ret None) r1)
          = None) as H2.
  { destruct (ExporterConfig.IncludeTokens config); [|reflexivity].
    destruct (Hu eq_refl) as [users Hus].
    now apply (exportUsersAndTokens_Ok users). }
  destruct ((if ExporterConfig.IncludeTokens config
             then exportUsersAndTokens connector else ret None) r1)
    as [a r2].
  cbn [fst] in H2. subst a.
  assert (fst ((if ExporterConfig.IncludeAbilities config
                then exportAbilities connector else ret None) r2)
          = None) as H3.
  { destruct (ExporterConfig.IncludeAbilities config); [|reflexivity].
    destruct (Ha eq_refl) as [abilities Has].
    now apply (exportAbilities_Ok abilities). }
  destruct ((if ExporterConfig.IncludeAbilities config
             then exportAbilities connector else ret None) r2)
    as [a r3].
  cbn [fst] in H3. subst a.
  now exists r3.
Qed.

Lemma Export_Err (r : ExportResult.t) :
  (exists err, Connector.GetAllChannels connector = Err err)
  \/ (ExporterConfig.IncludeTokens config = true
      /\ exists err, Connector.GetUsersWithTokens connector = Err err)
  \/ (ExporterConfig.IncludeAbilities config = true
      /\ exists err, Connector.GetAllAbilities connector = Err err) ->
  exists err, fst (Export json_Marshal connector config r) = Err err.
Proof.
  intros Hfail. unfold Export, bind.
  destruct (exportChannels json_Marshal connector r) as [[e1|] r1] eqn:E1;
    [eexists; reflexivity|].
  destruct Hfail as [[err Hc]|Hfail].
  { unfold exportChannels in E1. rewrite Hc in E1. discriminate. }
  destruct ((if ExporterConfig.IncludeTokens config
             then exportUsersAndTokens connector else ret None) r1)
    as [[e2|] r2] eqn:E2; [eexists; reflexivity|].
  destruct Hfail as [[Ht [err Hu]]|[Hi [err Ha]]].
  { rewrite Ht in E2. unfold exportUsersAndTokens in E2. rewrite Hu in E2.
    discriminate. }
  rewrite Hi. unfold exportAbilities. rewrite Ha. eexists. reflexivity.
Qed.

(** C9: two exports of the same source (the connector answers every query
    the same way) with the same configuration, started at the instants
    [now1] and [now2], both fail with the same error or both succeed, and
    then the second result is the first one with [now2] as
    source.exported_at: the two agree on the version, the type and version
    of the source, the data and the warnings, so that a serializer, which
    is a function of the result, gives the same bytes on both once
    exported_at is set aside. *)
Theorem C9_deterministic_up_to_timestamp (now1 now2 : Time) :
  runExport json_Marshal connector config now2
  = mapResult (setExportedAt now2)
      (runExport json_Marshal connector config now1)
  /\ match runExport json_Marshal connector config now1,
           runExport json_Marshal connector config now2 with
     | Ok r1, Ok r2 =>
       ExportResult.Version r1 = ExportResult.Version r2
       /\ Source.Type_ (ExportResult.Source r1)
          = Source.Type_ (ExportResult.Source r2)
       /\ Source.Version (ExportResult.Source r1)
          = Source.Version (ExportResult.Source r2)
       /\ ExportResult.Data r1 = ExportResult.Data r2
       /\ ExportResult.Warnings r1 = ExportResult.Warnings r2
       /\ forall (ToJSON : ExportResult.t -> string) (t : Time),
            ToJSON (setExportedAt t r1) = ToJSON (setExportedAt t r2)
     | Err e1, Err e2 => e1 = e2
     | _, _ => False
     end.
Proof.
  assert (runExport json_Marshal connector config now2
          = mapResult (setExportedAt now2)
              (runExport json_Marshal connector config now1)) as H.
  { unfold runExport.
    change (schema.NewExportResult now2)
      with (setExportedAt now2 (schema.NewExportResult now1)).
    apply Export_setExportedAt. }
  split; [exact H|]. rewrite H.
  destruct (runExport json_Marshal connector config now1) as [r1|e1];
    cbn [mapResult]; [|reflexivity].
  repeat split.
Qed.

End ExportPass.

(** ** The properties on the sample data *)

Example MapChannelType_999 : MapChannelType 999 = ("custom", false).
Proof. reflexivity. Qed.

Example MapChannelType_aliases :
  MapChannelType ChannelTypeOpenAI = ("openai", true)
  /\ MapChannelType ChannelTypeSora = ("openai", true)
  /\ MapChannelType ChannelTypeCustom = ("custom", true).
Proof. repeat split. Qed.

(** The scenario of the channel "acme" with two secrets and two groups. *)
Example acme_scenario :
  let ch :=
    Channel.mk 7 1 ("sk-a" ++ String newline "sk-b") None None 1 "acme"
      None 0 0 0 None "" 0 0 "" "default,vip" 0 None None None None ""
      None None None None None None "" in
  let out := channelToProviders noBackup ch emptyResult in
  map Provider.Name (fst out) = ["acme"; "acme-2"]
  /\ map Provider.APIKey (fst out) = ["sk-a"; "sk-b"]
  /\ map Provider.PrimaryGroup (fst out) = ["default"; "default"]
  /\ map Provider.AllGroups (fst out)
     = [["default"; "vip"]; ["default"; "vip"]]
  /\ map Provider.Weight (fst out) = [1; 1]
  /\ map Provider.IsMultiKey (fst out) = [true; true]
  /\ map Provider.MultiKeyIndex (fst out) = [1; 2]
  /\ length (ExportResult.Warnings (snd out)) = 1%nat.
Proof. vm_compute. repeat split. Qed.

Lemma C1_whitespace_credential_witness :
  (exists p,
      fst (channelToProviders noBackup blankChannel emptyResult) = [p]
      /\ Provider.APIKey p = blankKey)
  /\ fst (channelToProviders noBackup emptyKeyChannel emptyResult) = [].
Proof.
  split.
  - apply (proj1 (C1_whitespace_credential noBackup blankChannel emptyResult)).
    + discriminate.
    + vm_compute. reflexivity.
  - apply (proj2 (C1_whitespace_credential noBackup emptyKeyChannel
                    emptyResult)).
    reflexivity.
Defined.

(** C1 as it is stated fails on the empty credential field: no Provider is
    emitted for it. *)
Lemma C1_empty_credential_counterexample :
  Channel.Key emptyKeyChannel = ""
  /\ ~ (exists p,
         fst (channelToProviders noBackup emptyKeyChannel emptyResult) = [p]
         /\ Provider.APIKey p = Channel.Key emptyKeyChannel).
Proof.
  split; [reflexivity|].
  intros (p & H & _). vm_compute in H. discriminate.
Qed.

Lemma C2_one_provider_per_segment_witness :
  let providers := fst (channelToProviders noBackup twoKeyChannel emptyResult) in
  length providers = 2%nat
  /\ map Provider.APIKey providers = ["sk-a"; "sk-b"]
  /\ (exists p, providers !! 0%nat = Some p /\ Provider.Name p = "acme")
  /\ (exists p, providers !! 1%nat = Some p /\ Provider.Name p = "acme-2").
Proof.
  destruct (C2_one_provider_per_segment noBackup twoKeyChannel emptyResult 2)
    as (Hlen & Hkeys & Hfirst & Hrest).
  - vm_compute. reflexivity.
  - lia.
  - split; [exact Hlen|].
    split; [exact Hkeys|].
    split; [exact Hfirst|].
    apply (Hrest 2%nat). lia.
Defined.

Lemma C5_expiry_witness :
  Key.ExpiresAt (tokenToKey (plainToken (-1) 0 0 true) "bob") = None
  /\ Key.ExpiresAt (tokenToKey (plainToken 0 0 0 true) "bob") = None
  /\ Key.ExpiresAt (tokenToKey (plainToken 1700000000 0 0 true) "bob")
     = Some (Unix 1700000000 0).
Proof.
  split; [|split].
  - apply (proj1 (C5_expiry (plainToken (-1) 0 0 true) "bob")).
    left. reflexivity.
  - apply (proj1 (C5_expiry (plainToken 0 0 0 true) "bob")).
    right. reflexivity.
  - apply (proj2 (C5_expiry (plainToken 1700000000 0 0 true) "bob")).
    reflexivity.
Defined.

Lemma C6_unknown_kind_is_custom_witness :
  MapChannelType 999 = ("custom", false)
  /\ ExportResult.Warnings
       (snd (channelToProviders noBackup unknownKindChannel emptyResult))
     = ["Channel 'acme' (ID=7) has unknown type 999, mapped to 'custom'"]
  /\ Forall (fun p => Provider.Type_ p = "custom")
       (fst (channelToProviders noBackup unknownKindChannel emptyResult))
  /\ length (fst (channelToProviders noBackup unknownKindChannel emptyResult))
     = 1%nat
  /\ (exists p,
        fst (channelToProviders noBackup unknownKindChannel emptyResult)
        !! 0%nat = Some p
        /\ Provider.Type_ p = "custom" /\ Provider.Name p = "acme")
  /\ ExportResult.Warnings
       (snd (channelToProviders noBackup unknownKindEmptyChannel emptyResult))
     = ["Channel 'acme' (ID=7) has unknown type 999, mapped to 'custom'"]
  /\ fst (channelToProviders noBackup unknownKindEmptyChannel emptyResult)
     = [].
Proof.
  destruct (C6_unknown_kind_is_custom noBackup 999) as [_ H].
  destruct H as [Hmap Hch]; [reflexivity|].
  destruct (Hch unknownKindChannel emptyResult eq_refl)
    as (Hw & _ & _ & _ & Hty & Hsome & _).
  destruct (Hch unknownKindEmptyChannel emptyResult eq_refl)
    as (Hw' & _ & _ & _ & _ & _ & Hnone).
  destruct Hsome as [Hlen Hp]; [discriminate|].
  split; [exact Hmap|].
  split; [rewrite Hw; reflexivity|].
  split; [exact Hty|].
  split; [rewrite Hlen; reflexivity|].
  split; [exact Hp|].
  split; [rewrite Hw'; reflexivity|].
  apply Hnone. reflexivity.
Defined.

(** C6 as it is stated fails on a channel of an unknown kind whose
    credential field is empty: the warning is appended, and no Provider, of
    type "custom" or any other, is emitted. *)
Lemma C6_empty_credential_counterexample :
  channelTypeMapping !! Channel.Type_ unknownKindEmptyChannel = None
  /\ MapChannelType (Channel.Type_ unknownKindEmptyChannel)
     = ("custom", false)
  /\ ExportResult.Warnings
       (snd (channelToProviders noBackup unknownKindEmptyChannel emptyResult))
     = ["Channel 'acme' (ID=7) has unknown type 999, mapped to 'custom'"]
  /\ ~ (exists p,
         In p (fst (channelToProviders noBackup unknownKindEmptyChannel
                      emptyResult))
         /\ Provider.Type_ p = "custom").
Proof.
  split; [reflexivity|].
  split; [reflexivity|].
  split; [vm_compute; reflexivity|].
  intros (p & H & _). vm_compute in H. exact H.
Qed.

Lemma C7_multi_key_flags_witness :
  exists p,
    fst (channelToProviders noBackup twoKeyChannel emptyResult) !! 1%nat
    = Some p
    /\ Provider.IsMultiKey p = true /\ Provider.MultiKeyIndex p = 2.
Proof.
  eexists. split; [vm_compute; reflexivity|].
  match goal with
  | |- Provider.IsMultiKey ?p = _ /\ _ =>
    destruct (C7_multi_key_flags noBackup twoKeyChannel emptyResult 1 p
                eq_refl) as (Hm & _ & Hi & _)
  end.
  assert (Hlt : (1 < length (parseKeys (Channel.Key twoKeyChannel)))%nat)
    by (vm_compute; lia).
  split; [apply Hm; exact Hlt|].
  apply Hi, Hm. exact Hlt.
Defined.

Lemma C8_weight_and_priority_witness :
  exists p,
    fst (channelToProviders noBackup oneKeyChannel emptyResult) !! 0%nat
    = Some p
    /\ Provider.Weight p = 5 /\ Provider.Priority p = 3.
Proof.
  eexists. split; [vm_compute; reflexivity|].
  match goal with
  | |- Provider.Weight ?p = _ /\ _ =>
    destruct (C8_weight_and_priority noBackup oneKeyChannel emptyResult 0 p
                eq_refl) as (Hw & _ & _ & Hp & _)
  end.
  split.
  - apply (Hw 5 eq_refl); [lia|reflexivity].
  - apply (Hp 3 eq_refl). lia.
Defined.

(** C8 as it is stated fails on a weight that does not fit Go's signed int:
    the weight 2^63 of the channel becomes -2^63 on the Provider. *)
Lemma C8_weight_counterexample :
  Channel.Weight heavyChannel = Some 9223372036854775808
  /\ exists p,
      fst (channelToProviders noBackup heavyChannel emptyResult) = [p]
      /\ Provider.Weight p = -9223372036854775808
      /\ Provider.Weight p <> 9223372036854775808.
Proof.
  split; [reflexivity|].
  eexists. split; [vm_compute; reflexivity|].
  split; [reflexivity|discriminate].
Qed.


(** ** More properties *)

(** *** The parsers of the multi-valued fields *)

Lemma nonEmpty_true (s : string) : nonEmpty s = true <-> s <> "".
Proof.
  unfold nonEmpty. destruct (String.eqb s "") eqn:E.
  - apply String.eqb_eq in E. split; [discriminate|congruence].
  - apply String.eqb_neq in E. split; [trivial|reflexivity].
Qed.

Lemma trimmed_parts_nonEmpty (parts : list string) :
  Forall (fun s => s <> "")
    (List.filter nonEmpty (map strings.TrimSpace parts)).
Proof.
  apply List.Forall_forall. intros s Hs.
  apply List.filter_In in Hs as [_ Hs]. now apply nonEmpty_true.
Qed.

Lemma parseKeys_nil_iff (key : string) : parseKeys key = [] <-> key = "".
Proof.
  split; [|intros ->; reflexivity].
  intros Hnil. destruct (String.eqb key "") eqn:E;
    [now apply String.eqb_eq in E|].
  apply String.eqb_neq in E.
  destruct (secretSegments key) as [|k ks] eqn:Hs.
  - rewrite (parseKeys_fallback _ E Hs) in Hnil. discriminate.
  - rewrite parseKeys_segments, Hs in Hnil by congruence. discriminate.
Qed.

Lemma parseKeys_nonEmpty (key : string) :
  Forall (fun k => k <> "") (parseKeys key).
Proof.
  destruct (String.eqb key "") eqn:E.
  - apply String.eqb_eq in E as ->. constructor.
  - apply String.eqb_neq in E.
    destruct (secretSegments key) as [|k ks] eqn:Hs.
    + rewrite (parseKeys_fallback _ E Hs). now repeat constructor.
    + rewrite parseKeys_segments by congruence. apply trimmed_parts_nonEmpty.
Qed.

(** X1: a channel yields no Provider exactly when its credential field is
    the empty string, and no Provider ever carries an empty api_key. *)
Theorem X1_api_key_never_empty (json_Marshal : Channel.t -> option string)
  (ch : Channel.t) (r : ExportResult.t) :
  (fst (channelToProviders json_Marshal ch r) = [] <-> Channel.Key ch = "")
  /\ Forall (fun p => Provider.APIKey p <> "")
       (fst (channelToProviders json_Marshal ch r)).
Proof.
  pose proof (channelToProviders_keys json_Marshal ch r) as Hk.
  split.
  - rewrite <- parseKeys_nil_iff, <- Hk.
    destruct (fst (channelToProviders json_Marshal ch r));
      split; intros H; try reflexivity; discriminate.
  - pose proof (parseKeys_nonEmpty (Channel.Key ch)) as Hne.
    rewrite <- Hk in Hne. exact (proj1 (List.Forall_map _ _ _) Hne).
Qed.

Lemma parseGroups_eq (group : string) :
  parseGroups group
  = match fieldParts group comma with
    | [] => ["default"]
    | groups => groups
    end.
Proof.
  unfold parseGroups. destruct (String.eqb group "") eqn:E.
  - apply String.eqb_eq in E as ->. reflexivity.
  - cbv zeta. rewrite appendTrimmed_filter. cbn [app].
    fold (fieldParts group comma).
    now destruct (fieldParts group comma).
Qed.

Lemma parseGroups_nonEmpty (group : string) :
  Forall (fun g => g <> "") (parseGroups group).
Proof.
  rewrite parseGroups_eq.
  pose proof (trimmed_parts_nonEmpty (strings.Split group comma)) as Hne.
  fold (fieldParts group comma) in Hne.
  destruct (fieldParts group comma); [now repeat constructor|exact Hne].
Qed.

(** X2: the group list of a channel is never empty and holds no empty name;
    it is the single group "default" exactly when the field has no name in
    it (empty, or commas and white space only). *)
Theorem X2_groups_never_empty (group : string) :
  parseGroups group <> []
  /\ Forall (fun g => g <> "") (parseGroups group)
  /\ (fieldParts group comma = [] -> parseGroups group = ["default"])
  /\ (fieldParts group comma <> [] ->
      parseGroups group = fieldParts group comma).
Proof.
  rewrite parseGroups_eq.
  pose proof (trimmed_parts_nonEmpty (strings.Split group comma)) as Hne.
  fold (fieldParts group comma) in Hne.
  destruct (fieldParts group comma) as [|g gs].
  - split; [discriminate|]. split; [|split; [reflexivity|congruence]].
    constructor; [discriminate|constructor].
  - split; [discriminate|]. split; [exact Hne|].
    split; [discriminate|reflexivity].
Qed.

Lemma Split_app (a b : string) (sep : ascii) :
  strings.Split (a ++ String sep b) sep
  = (strings.Split a sep ++ strings.Split b sep)%list.
Proof.
  induction a as [|c a IH].
  - cbn [strings.Split]. change ("" ++ String sep b) with (String sep b).
    cbn [strings.Split]. now rewrite Ascii.eqb_refl.
  - rewrite append_String. cbn [strings.Split]. rewrite IH.
    destruct (Ascii.eqb c sep); [reflexivity|].
    destruct (strings.Split a sep) as [|h t] eqn:E;
      [now apply Split_not_nil in E|reflexivity].
Qed.

Lemma parseModels_eq (models : string) :
  parseModels models = fieldParts models comma.
Proof.
  unfold parseModels. destruct (String.eqb models "") eqn:E.
  - apply String.eqb_eq in E as ->. reflexivity.
  - cbv zeta. now rewrite appendTrimmed_filter.
Qed.

(** X3: the model list of a field made of two fields joined by a comma is
    the model list of the first followed by that of the second; no model
    name in a list is empty, and the empty field gives the empty list. *)
Theorem X3_models_of_joined_fields (a b : string) :
  parseModels (a ++ String comma b) = (parseModels a ++ parseModels b)%list
  /\ Forall (fun m => m <> "") (parseModels a)
  /\ parseModels "" = [].
Proof.
  split; [|split; [|reflexivity]].
  - rewrite !parseModels_eq. unfold fieldParts.
    rewrite Split_app, map_app. apply List.filter_app.
  - rewrite parseModels_eq. apply trimmed_parts_nonEmpty.
Qed.

(** *** The Providers of one channel *)

Lemma keyProvider_eq ch m pt bu ms pg gs w pr st ab orig i key :
  keyProvider ch m pt bu ms pg gs w pr st ab orig i key
  = Provider.mk (Channel.ID ch)
      (if m && (0 <? i)%nat
       then Channel.Name ch ++ "-" ++ itoa (Z.of_nat i + 1)
       else Channel.Name ch)
      pt bu key ms pg gs w pr st ab m
      (if m then Z.of_nat i + 1 else 0)
      (if m then Channel.Name ch else "") orig.
Proof. unfold keyProvider. destruct m; reflexivity. Qed.

Lemma channelToProviders_lookup_inv
  (json_Marshal : Channel.t -> option string) (ch : Channel.t)
  (r : ExportResult.t) (i : nat) (p : Provider.t) :
  fst (channelToProviders json_Marshal ch r) !! i = Some p ->
  exists key,
    parseKeys (Channel.Key ch) !! i = Some key
    /\ Provider.OriginalID p = Channel.ID ch
    /\ Provider.BaseURL p
       = match Channel.BaseURL ch with Some u => u | None => "" end
    /\ Provider.Models p = parseModels (Channel.Models ch)
    /\ Provider.PrimaryGroup p = hd "" (parseGroups (Channel.Group ch))
    /\ Provider.AllGroups p = parseGroups (Channel.Group ch)
    /\ Provider.Status p = MapChannelStatus (Channel.Status ch)
    /\ Provider.AutoBan p
       = match Channel.AutoBan ch with Some a => a =? 1 | None => true end
    /\ Provider.Original p = json_Marshal ch.
Proof.
  rewrite channelToProviders_fst, list_lookup_imap.
  destruct (parseKeys (Channel.Key ch) !! i) as [key|] eqn:Hk; [|discriminate].
  cbn [fmap option_fmap option_map]. intros H.
  apply (inj Some) in H. subst p.
  exists key. split; [reflexivity|].
  rewrite keyProvider_eq.
  cbn [Provider.OriginalID Provider.BaseURL Provider.Models
       Provider.PrimaryGroup Provider.AllGroups Provider.Status
       Provider.AutoBan Provider.Original].
  repeat split. unfold createOriginalBackup. now destruct (json_Marshal ch).
Qed.

(** X4: on every Provider, all_groups is the group list of the channel,
    which is not empty, and primary_group is its first element, so a group
    of the Provider, and not the empty name. *)
Theorem X4_primary_group_is_first_group
  (json_Marshal : Channel.t -> option string) (ch : Channel.t)
  (r : ExportResult.t) (i : nat) (p : Provider.t) :
  fst (channelToProviders json_Marshal ch r) !! i = Some p ->
  Provider.AllGroups p = parseGroups (Channel.Group ch)
  /\ (exists rest, Provider.AllGroups p = Provider.PrimaryGroup p :: rest)
  /\ In (Provider.PrimaryGroup p) (Provider.AllGroups p)
  /\ Provider.PrimaryGroup p <> "".
Proof.
  intros Hp.
  destruct (channelToProviders_lookup_inv _ _ _ _ _ Hp)
    as (key & _ & _ & _ & _ & Hpg & Hag & _).
  rewrite Hpg, Hag.
  pose proof (parseGroups_not_nil (Channel.Group ch)) as Hnil.
  pose proof (parseGroups_nonEmpty (Channel.Group ch)) as Hne.
  destruct (parseGroups (Channel.Group ch)) as [|g gs]; [congruence|].
  cbn [hd]. split; [reflexivity|].
  split; [now exists gs|].
  split; [now left|].
  now inversion Hne.
Qed.

(** X5: the Providers split from one channel carry the id of the channel as
    original_id and differ from one another in name, api_key and
    multi_key_index at most. *)
Theorem X5_split_providers_share_the_channel
  (json_Marshal : Channel.t -> option string) (ch : Channel.t)
  (r : ExportResult.t) (i j : nat) (p q : Provider.t) :
  fst (channelToProviders json_Marshal ch r) !! i = Some p ->
  fst (channelToProviders json_Marshal ch r) !! j = Some q ->
  Provider.OriginalID p = Channel.ID ch /\ sameSource p q.
Proof.
  intros Hp Hq.
  destruct (channelToProviders_lookup_inv _ _ _ _ _ Hp)
    as (kp & _ & Hid & Hbu & Hms & Hpg & Hag & Hst & Hab & Hor).
  destruct (channelToProviders_lookup_inv _ _ _ _ _ Hq)
    as (kq & _ & Hid' & Hbu' & Hms' & Hpg' & Hag' & Hst' & Hab' & Hor').
  destruct (channelToProviders_lookup _ _ _ _ _ Hp)
    as (? & _ & _ & Hty & _ & Hm & _ & Hon & Hw & Hpr).
  destruct (channelToProviders_lookup _ _ _ _ _ Hq)
    as (? & _ & _ & Hty' & _ & Hm' & _ & Hon' & Hw' & Hpr').
  split; [assumption|].
  unfold sameSource. repeat split; congruence.
Qed.

Lemma itoa_inj (a b : Z) : itoa a = itoa b -> a = b.
Proof.
  unfold itoa. intros H.
  apply (f_equal NilEmpty.int_of_string) in H.
  rewrite !NilEmpty.isi in H. injection H as H.
  apply (f_equal Z.of_int) in H. now rewrite !DecimalZ.of_to in H.
Qed.

Lemma append_nil_r (s : string) : s ++ "" = s.
Proof.
  induction s as [|c s IH]; [reflexivity|].
  rewrite append_String. now f_equal.
Qed.

Lemma suffixed_name_differs (name suffix : string) :
  name <> name ++ "-" ++ suffix.
Proof.
  intros H. rewrite <- (append_nil_r name) in H at 1.
  apply append_inv_head in H. rewrite append_String in H. discriminate.
Qed.

(** X6: the Providers split from one channel have pairwise different
    names. *)
Theorem X6_names_within_a_channel_differ
  (json_Marshal : Channel.t -> option string) (ch : Channel.t)
  (r : ExportResult.t) (i j : nat) (p q : Provider.t) :
  fst (channelToProviders json_Marshal ch r) !! i = Some p ->
  fst (channelToProviders json_Marshal ch r) !! j = Some q ->
  i <> j -> Provider.Name p <> Provider.Name q.
Proof.
  intros Hp Hq Hij Hname. apply Hij. clear Hij.
  destruct (channelToProviders_lookup _ _ _ _ _ Hp)
    as (kp & Hkp & _ & _ & Hn & _).
  destruct (channelToProviders_lookup _ _ _ _ _ Hq)
    as (kq & Hkq & _ & _ & Hn' & _).
  rewrite Hn, Hn' in Hname. clear Hn Hn'.
  apply lookup_lt_Some in Hkp, Hkq.
  destruct (1 <? length (parseKeys (Channel.Key ch)))%nat eqn:E.
  - cbn [andb] in Hname.
    destruct (0 <? i)%nat eqn:Ei; destruct (0 <? j)%nat eqn:Ej.
    + apply append_inv_head in Hname. rewrite !append_String in Hname.
      injection Hname as Hname. apply itoa_inj in Hname. lia.
    + symmetry in Hname. now apply suffixed_name_differs in Hname.
    + now apply suffixed_name_differs in Hname.
    + apply Nat.ltb_ge in Ei, Ej. lia.
  - apply Nat.ltb_ge in E. lia.
Qed.

(** X7: a snapshot that [json.Marshal] cannot produce is left out and
    nothing else changes: whatever the marshaller returns, the warnings are
    the same and the Providers are the same up to their snapshot, which is
    what the marshaller returned for the channel. *)
Theorem X7_backup_failure_is_silent
  (marshalA marshalB : Channel.t -> option string) (ch : Channel.t)
  (r : ExportResult.t) :
  snd (channelToProviders marshalA ch r) = snd (channelToProviders marshalB ch r)
  /\ map withoutOriginal (fst (channelToProviders marshalA ch r))
     = map withoutOriginal (fst (channelToProviders marshalB ch r))
  /\ Forall (fun p => Provider.Original p = marshalA ch)
       (fst (channelToProviders marshalA ch r)).
Proof.
  split; [now rewrite !channelToProviders_snd|].
  split.
  - rewrite !channelToProviders_fst.
    generalize (parseKeys (Channel.Key ch)) at 2 4 as keys.
    intros keys.
    change (map withoutOriginal) with (fmap (M := list) withoutOriginal).
    rewrite !fmap_imap. apply imap_ext. intros i key _.
    unfold compose. rewrite !keyProvider_eq. reflexivity.
  - apply Forall_lookup_2. intros i p Hp.
    now destruct (channelToProviders_lookup_inv _ _ _ _ _ Hp)
      as (key & _ & _ & _ & _ & _ & _ & _ & _ & Hor).
Qed.

(** *** The warnings of a channel, again *)

Lemma length_warningIf (c : bool) (w : string) :
  (length (warningIf c w) <= 1)%nat.
Proof. destruct c; cbn; lia. Qed.

Lemma warningIf_nil (c : bool) (w : string) :
  warningIf c w = [] <-> c = false.
Proof. destruct c; cbn; split; congruence. Qed.

Lemma Forall_warningIf (P : string -> Prop) (c : bool) (w : string) :
  P w -> Forall P (warningIf c w).
Proof. intros H. destruct c; cbn; repeat constructor. exact H. Qed.

Lemma addWarnings_id (r : ExportResult.t) (ws : list string) :
  addWarnings r ws = r <-> ws = [].
Proof.
  split; [|intros ->; apply addWarnings_nil].
  intros H. apply (f_equal ExportResult.Warnings) in H.
  cbn [addWarnings ExportResult.Warnings] in H.
  rewrite <- (app_nil_r (ExportResult.Warnings r)) in H at 2.
  now apply app_inv_head in H.
Qed.

(** X8: [channelToProviders] does nothing to the result but append
    warnings: at most eight, each starting with
    "Channel '<name>' (ID=<id>)"; the Providers it returns are not added by
    it, and version, source and data are left as they were. *)
Theorem X8_channel_only_appends_warnings
  (json_Marshal : Channel.t -> option string) (ch : Channel.t)
  (r : ExportResult.t) :
  let r' := snd (channelToProviders json_Marshal ch r) in
  ExportResult.Version r' = ExportResult.Version r
  /\ ExportResult.Source r' = ExportResult.Source r
  /\ ExportResult.Data r' = ExportResult.Data r
  /\ exists ws,
      ExportResult.Warnings r' = (ExportResult.Warnings r ++ ws)%list
      /\ (length ws <= 8)%nat
      /\ Forall (startsWith (channelPrefix ch)) ws.
Proof.
  cbv zeta. rewrite channelToProviders_snd.
  split; [reflexivity|]. split; [reflexivity|]. split; [reflexivity|].
  eexists. split; [reflexivity|]. split.
  - unfold fieldWarnings. rewrite !length_app.
    pose proof length_warningIf as H.
    repeat match goal with
    | |- context [length (warningIf ?c ?w)] =>
      let n := fresh "n" in
      pose proof (H c w); set (n := length (warningIf c w)) in *; clearbody n
    end.
    lia.
  - unfold fieldWarnings. rewrite !Forall_app.
    repeat split; apply Forall_warningIf; eexists; reflexivity.
Qed.

(** X9: a channel leaves the result untouched, no warning appended, exactly
    when its kind is in the table, its priority is absent or 0, its
    model_mapping, status_code_mapping, setting, param_override and
    header_override are absent or empty, and it has one group. *)
Theorem X9_channel_without_warning
  (json_Marshal : Channel.t -> option string) (ch : Channel.t)
  (r : ExportResult.t) :
  snd (channelToProviders json_Marshal ch r) = r
  <-> (is_Some (channelTypeMapping !! Channel.Type_ ch)
       /\ (Channel.Priority ch = None \/ Channel.Priority ch = Some 0)
       /\ isSet (Channel.ModelMapping ch) = false
       /\ isSet (Channel.StatusCodeMapping ch) = false
       /\ isSet (Channel.Setting ch) = false
       /\ isSet (Channel.ParamOverride ch) = false
       /\ isSet (Channel.HeaderOverride ch) = false
       /\ length (parseGroups (Channel.Group ch)) = 1%nat).
Proof.
  rewrite channelToProviders_snd, addWarnings_id.
  unfold fieldWarnings. rewrite !app_nil, !warningIf_nil.
  unfold MapChannelType, ToProviderType.
  pose proof (parseGroups_not_nil (Channel.Group ch)) as Hg.
  assert ((1 <? length (parseGroups (Channel.Group ch)))%nat = false
          <-> length (parseGroups (Channel.Group ch)) = 1%nat) as ->.
  { rewrite Nat.ltb_ge.
    destruct (parseGroups (Channel.Group ch)); [congruence|cbn; lia]. }
  assert (isNonZero (Channel.Priority ch) = false
          <-> Channel.Priority ch = None \/ Channel.Priority ch = Some 0)
    as ->.
  { destruct (Channel.Priority ch) as [p|]; cbn [isNonZero].
    - destruct (p =? 0) eqn:E; cbn [negb].
      + assert (p = 0) as -> by lia. intuition.
      + split; [discriminate|]. intros [H|H]; [discriminate|].
        injection H as ->. discriminate.
    - intuition. }
  destruct (channelTypeMapping !! Channel.Type_ ch) as [ty|]; cbn [snd negb].
  - intuition eauto.
  - split; [intros [H _]; discriminate|].
    intros [[x H] _]. discriminate.
Qed.

(** *** The three phases *)

Lemma extendWith_nil (r : ExportResult.t) : extendWith r [] [] [] [] [] = r.
Proof.
  destruct r as [v s [ps ms ks bs] ws]. unfold extendWith.
  cbn. now rewrite !app_nil_r.
Qed.

Lemma extendWith_extendWith (r : ExportResult.t) ps ms ks bs ws
  ps' ms' ks' bs' ws' :
  extendWith (extendWith r ps ms ks bs ws) ps' ms' ks' bs' ws'
  = extendWith r (ps ++ ps') (ms ++ ms') (ks ++ ks') (bs ++ bs')
      (ws ++ ws')%list.
Proof. unfold extendWith. cbn. now rewrite !app_assoc. Qed.

Lemma addWarnings_extendWith (r : ExportResult.t) (ws : list string) :
  addWarnings r ws = extendWith r [] [] [] [] ws.
Proof.
  destruct r as [v s [ps ms ks bs] w]. unfold addWarnings, extendWith.
  cbn. now rewrite !app_nil_r.
Qed.

Lemma channelToProviders_eq (json_Marshal : Channel.t -> option string)
  (ch : Channel.t) (r : ExportResult.t) :
  channelToProviders json_Marshal ch r
  = (channelProviders json_Marshal ch,
     extendWith r [] [] [] [] (channelWarnings ch)).
Proof.
  rewrite (surjective_pairing (channelToProviders json_Marshal ch r)).
  rewrite channelToProviders_snd, addWarnings_extendWith.
  unfold channelProviders. now rewrite !channelToProviders_fst.
Qed.

Lemma for_each_AddProvider (ps : list Provider.t) (r : ExportResult.t) :
  for_each ps AddProvider r = (tt, extendWith r ps [] [] [] []).
Proof.
  revert r. induction ps as [|p ps IH]; intros r.
  - cbn. now rewrite extendWith_nil.
  - cbn [for_each]. unfold bind. cbn [AddProvider]. rewrite IH.
    f_equal. destruct r as [v s [a b c d] w].
    unfold extendWith, schema.AddProvider. cbn.
    now rewrite <- !app_assoc, !app_nil_r.
Qed.

Lemma for_each_AddKey {A : Type} (f : A -> Key.t) (l : list A)
  (r : ExportResult.t) :
  for_each l (fun x => AddKey (f x)) r
  = (tt, extendWith r [] [] (map f l) [] []).
Proof.
  revert r. induction l as [|x l IH]; intros r.
  - cbn. now rewrite extendWith_nil.
  - cbn [for_each]. unfold bind. cbn [AddKey]. rewrite IH.
    f_equal. destruct r as [v s [a b c d] w].
    unfold extendWith, schema.AddKey. cbn.
    now rewrite <- !app_assoc, !app_nil_r.
Qed.

Lemma for_each_AddBinding {A : Type} (f : A -> Binding.t) (l : list A)
  (r : ExportResult.t) :
  for_each l (fun x => AddBinding (f x)) r
  = (tt, extendWith r [] [] [] (map f l) []).
Proof.
  revert r. induction l as [|x l IH]; intros r.
  - cbn. now rewrite extendWith_nil.
  - cbn [for_each]. unfold bind. cbn [AddBinding]. rewrite IH.
    f_equal. destruct r as [v s [a b c d] w].
    unfold extendWith, schema.AddBinding. cbn.
    now rewrite <- !app_assoc, !app_nil_r.
Qed.

Lemma channelsLoop_eq (json_Marshal : Channel.t -> option string)
  (channels : list Channel.t) (r : ExportResult.t) :
  for_each channels (fun ch =>
    providers <- channelToProviders json_Marshal ch ;;
    for_each providers AddProvider) r
  = (tt, extendWith r (concat (map (channelProviders json_Marshal) channels))
           [] [] [] (concat (map channelWarnings channels))).
Proof.
  revert r. induction channels as [|ch rest IH]; intros r.
  - cbn. now rewrite extendWith_nil.
  - cbn [for_each]. unfold bind at 1 2.
    rewrite channelToProviders_eq, for_each_AddProvider, IH.
    rewrite !extendWith_extendWith. cbn [map concat app].
    now rewrite ?app_nil_r.
Qed.

Lemma exportChannels_eq
  (json_Marshal : Channel.t -> option string) (connector : Connector.t)
  (channels : list Channel.t) (r : ExportResult.t) :
  Connector.GetAllChannels connector = Ok channels ->
  exportChannels json_Marshal connector r
  = (None,
     extendWith r (concat (map (channelProviders json_Marshal) channels))
       [] [] [] (concat (map channelWarnings channels))).
Proof.
  intros Hc. unfold exportChannels. rewrite Hc.
  unfold bind at 1. now rewrite channelsLoop_eq.
Qed.

(** X10: when the channels are fetched, [exportChannels] reports no error
    and appends to the result the Providers of every channel, channel by
    channel in the order fetched, and the warnings of every channel in the
    same order; Masters, Keys and Bindings are not touched. *)
Theorem X10_providers_in_channel_order
  (json_Marshal : Channel.t -> option string) (connector : Connector.t)
  (channels : list Channel.t) (r : ExportResult.t) :
  Connector.GetAllChannels connector = Ok channels ->
  exportChannels json_Marshal connector r
  = (None,
     extendWith r (concat (map (channelProviders json_Marshal) channels))
       [] [] [] (concat (map channelWarnings channels))).
Proof. apply exportChannels_eq. Qed.

Lemma usersLoop_eq (connector : Connector.t) (users : list User.t) :
  forall (masterMap : gmap Z string) (r : ExportResult.t),
    snd (usersLoop connector users masterMap r)
    = extendWith r [] (map userToMaster users)
        (concat (map (userKeys connector) users)) []
        (concat (map (userWarnings connector) users)).
Proof.
  induction users as [|user rest IH]; intros masterMap r.
  - cbn. now rewrite extendWith_nil.
  - cbn [usersLoop]. unfold bind at 1. cbn [AddMaster].
    assert (schema.AddMaster r (userToMaster user)
            = extendWith r [] [userToMaster user] [] [] []) as ->.
    { destruct r as [v s [a b c d] w].
      unfold extendWith, schema.AddMaster. cbn. now rewrite !app_nil_r. }
    cbn [map concat]. unfold userKeys at 1, userWarnings at 1.
    cbn [userToMaster Master.Name].
    destruct (Connector.GetTokensByUserID connector (User.ID user))
      as [tokens|err].
    + unfold bind at 1. rewrite for_each_AddKey, IH.
      rewrite !extendWith_extendWith. cbn [app]. now rewrite ?app_nil_r.
    + unfold bind at 1. cbn [AddWarning].
      assert (forall r' w, schema.AddWarning r' w
                           = extendWith r' [] [] [] [] [w]) as ->.
      { intros [v s [a b c d] w0] w.
        unfold extendWith, schema.AddWarning. cbn. now rewrite !app_nil_r. }
      rewrite IH, !extendWith_extendWith. cbn [app]. now rewrite ?app_nil_r.
Qed.

Lemma exportUsersAndTokens_eq (connector : Connector.t)
  (users : list User.t) (r : ExportResult.t) :
  Connector.GetUsersWithTokens connector = Ok users ->
  fst (exportUsersAndTokens connector r) = None
  /\ snd (exportUsersAndTokens connector r)
     = extendWith r [] (map userToMaster users)
         (concat (map (userKeys connector) users)) []
         (concat (map (userWarnings connector) users)).
Proof.
  intros Hu. unfold exportUsersAndTokens. rewrite Hu. unfold bind.
  pose proof (usersLoop_eq connector users ∅ r) as H.
  destruct (usersLoop connector users ∅ r) as [mm r1]. cbn [snd] in H.
  subst r1. split; reflexivity.
Qed.

(** X11: when the users are fetched, [exportUsersAndTokens] reports no
    error and appends one Master per user, in the order fetched (also for a
    user whose tokens cannot be fetched), the Keys of the tokens of every
    user whose tokens are fetched, user by user, each with the username as
    master_ref, and one warning per user whose tokens cannot be fetched;
    Providers and Bindings are not touched. *)
Theorem X11_one_master_per_user (connector : Connector.t)
  (users : list User.t) (r : ExportResult.t) :
  Connector.GetUsersWithTokens connector = Ok users ->
  fst (exportUsersAndTokens connector r) = None
  /\ snd (exportUsersAndTokens connector r)
     = extendWith r [] (map userToMaster users)
         (concat (map (userKeys connector) users)) []
         (concat (map (userWarnings connector) users)).
Proof. apply exportUsersAndTokens_eq. Qed.

(** X12: when the abilities are fetched, [exportAbilities] reports no error
    and appends one Binding per ability, in the order fetched, whose
    namespace and route_group are the group of the ability, whose model is
    its model and whose status is "active" for an enabled ability and
    "disabled" otherwise; nothing else is touched and no warning is
    added. *)
Theorem X12_one_binding_per_ability (connector : Connector.t)
  (abilities : list Ability.t) (r : ExportResult.t) :
  Connector.GetAllAbilities connector = Ok abilities ->
  exportAbilities connector r
  = (None,
     extendWith r [] [] []
       (map (fun ab =>
               Binding.mk (Ability.Group ab) (Ability.Group ab)
                 (Ability.Model ab)
                 (if Ability.Enabled ab then "active" else "disabled"))
            abilities) []).
Proof.
  intros Ha. unfold exportAbilities. rewrite Ha. unfold bind at 1.
  rewrite for_each_AddBinding. cbn [ret]. do 2 f_equal.
  apply map_ext. intros ab. unfold abilityToBinding.
  now destruct (Ability.Enabled ab).
Qed.

(** *** The whole pass *)

Lemma Export_eq (json_Marshal : Channel.t -> option string)
  (connector : Connector.t) (config : ExporterConfig.t)
  (channels : list Channel.t) (users : list User.t)
  (abilities : list Ability.t) (r : ExportResult.t) :
  Connector.GetAllChannels connector = Ok channels ->
  (if ExporterConfig.IncludeTokens config
   then Connector.GetUsersWithTokens connector = Ok users
   else users = []) ->
  (if ExporterConfig.IncludeAbilities config
   then Connector.GetAllAbilities connector = Ok abilities
   else abilities = []) ->
  exists res,
    Export json_Marshal connector config r = (Ok res, res)
    /\ res = extendWith r
               (concat (map (channelProviders json_Marshal) channels))
               (map userToMaster users)
               (concat (map (userKeys connector) users))
               (map abilityToBinding abilities)
               (concat (map channelWarnings channels)
                ++ concat (map (userWarnings connector) users)).
Proof.
  intros Hc Hu Ha. eexists. split; [|reflexivity].
  unfold Export. unfold bind at 1.
  rewrite (exportChannels_eq _ _ _ _ Hc).
  unfold bind at 1.
  set (r1 := extendWith r _ [] [] [] _).
  assert ((if ExporterConfig.IncludeTokens config
           then exportUsersAndTokens connector else ret None) r1
          = (None, extendWith r1 [] (map userToMaster users)
                     (concat (map (userKeys connector) users)) []
                     (concat (map (userWarnings connector) users)))) as ->.
  { destruct (ExporterConfig.IncludeTokens config).
    - destruct (exportUsersAndTokens_eq connector users r1 Hu) as [H1 H2].
      rewrite (surjective_pairing (exportUsersAndTokens connector r1)).
      now rewrite H1, H2.
    - subst users. cbn. now rewrite extendWith_nil. }
  unfold bind at 1.
  set (r2 := extendWith r1 _ _ _ _ _).
  assert ((if ExporterConfig.IncludeAbilities config
           then exportAbilities connector else ret None) r2
          = (None, extendWith r2 [] [] []
                     (map abilityToBinding abilities) [])) as ->.
  { destruct (ExporterConfig.IncludeAbilities config).
    - unfold exportAbilities. rewrite Ha. unfold bind at 1.
      now rewrite for_each_AddBinding.
    - subst abilities. cbn. now rewrite extendWith_nil. }
  subst r2 r1. rewrite !extendWith_extendWith. cbn [app].
  now rewrite ?app_nil_r.
Qed.

(** X13: when every fetch of a phase that runs succeeds, [Export] returns
    the accumulator itself, which is the one it started from with, appended
    in this order, the Providers and warnings of the channels, then (tokens
    included) the Masters, Keys and warnings of the users, then (abilities
    included) the Bindings of the abilities. A phase that does not run
    contributes nothing. *)
Theorem X13_export_is_the_three_phases_in_turn
  (json_Marshal : Channel.t -> option string)
  (connector : Connector.t) (config : ExporterConfig.t)
  (channels : list Channel.t) (users : list User.t)
  (abilities : list Ability.t) (r : ExportResult.t) :
  Connector.GetAllChannels connector = Ok channels ->
  (if ExporterConfig.IncludeTokens config
   then Connector.GetUsersWithTokens connector = Ok users
   else users = []) ->
  (if ExporterConfig.IncludeAbilities config
   then Connector.GetAllAbilities connector = Ok abilities
   else abilities = []) ->
  exists res,
    Export json_Marshal connector config r = (Ok res, res)
    /\ res = extendWith r
               (concat (map (channelProviders json_Marshal) channels))
               (map userToMaster users)
               (concat (map (userKeys connector) users))
               (map abilityToBinding abilities)
               (concat (map channelWarnings channels)
                ++ concat (map (userWarnings connector) users)).
Proof. apply Export_eq. Qed.

Lemma Export_Ok_inv (json_Marshal : Channel.t -> option string)
  (connector : Connector.t) (config : ExporterConfig.t)
  (r res : ExportResult.t) :
  fst (Export json_Marshal connector config r) = Ok res ->
  exists channels users abilities,
    Connector.GetAllChannels connector = Ok channels
    /\ (if ExporterConfig.IncludeTokens config
        then Connector.GetUsersWithTokens connector = Ok users
        else users = [])
    /\ (if ExporterConfig.IncludeAbilities config
        then Connector.GetAllAbilities connector = Ok abilities
        else abilities = []).
Proof.
  intros Hres.
  assert (forall err, fst (Export json_Marshal connector config r)
                      <> Err err) as Hno
      by (intros err H; rewrite H in Hres; discriminate).
  pose proof (Export_Err json_Marshal connector config r) as Herr.
  destruct (Connector.GetAllChannels connector) as [channels|e1] eqn:Hc.
  2:{ destruct Herr as [err Herr]; [left; eauto|]. now apply Hno in Herr. }
  exists channels.
  destruct (ExporterConfig.IncludeTokens config) eqn:Ht.
  - destruct (Connector.GetUsersWithTokens connector) as [users|e2] eqn:Hu.
    2:{ destruct Herr as [err Herr]; [right; left; eauto|].
        now apply Hno in Herr. }
    exists users.
    destruct (ExporterConfig.IncludeAbilities config) eqn:Hi.
    + destruct (Connector.GetAllAbilities connector) as [abilities|e3] eqn:Ha.
      2:{ destruct Herr as [err Herr]; [right; right; eauto|].
          now apply Hno in Herr. }
      now exists abilities.
    + now exists [].
  - exists [].
    destruct (ExporterConfig.IncludeAbilities config) eqn:Hi.
    + destruct (Connector.GetAllAbilities connector) as [abilities|e3] eqn:Ha.
      2:{ destruct Herr as [err Herr]; [right; right; eauto|].
          now apply Hno in Herr. }
      now exists abilities.
    + now exists [].
Qed.

Lemma userKeys_MasterRef (connector : Connector.t) (user : User.t)
  (k : Key.t) :
  In k (userKeys connector user) -> Key.MasterRef k = User.Username user.
Proof.
  unfold userKeys.
  destruct (Connector.GetTokensByUserID connector (User.ID user))
    as [tokens|err]; [|intros []].
  intros Hk. apply in_map_iff in Hk as (token & <- & _).
  unfold tokenToKey.
  destruct (Token.ModelLimitsEnabled token && nonEmpty (Token.ModelLimits token));
  destruct ((0 <? Token.ExpiredTime token)
            && negb (Token.ExpiredTime token =? -1));
  destruct (Token.AllowIPs token) as [ips|];
  try destruct (nonEmpty ips);
  destruct (Token.UnlimitedQuota token);
  reflexivity.
Qed.

(** X14: [Export] keeps the Keys tied to the Masters: if every Key of the
    accumulator names a Master of the accumulator before the pass, so does
    every Key of the result it returns; on the fresh accumulator of
    [NewExporter] this holds of every result. *)
Theorem X14_every_key_names_a_master
  (json_Marshal : Channel.t -> option string)
  (connector : Connector.t) (config : ExporterConfig.t) :
  (forall r res,
      keysHaveMasters r ->
      fst (Export json_Marshal connector config r) = Ok res ->
      keysHaveMasters res)
  /\ (forall now res,
      runExport json_Marshal connector config now = Ok res ->
      keysHaveMasters res).
Proof.
  assert (forall r res,
             keysHaveMasters r ->
             fst (Export json_Marshal connector config r) = Ok res ->
             keysHaveMasters res) as Hinv.
  { intros r res Hr Hres.
    destruct (Export_Ok_inv _ _ _ _ _ Hres)
      as (channels & users & abilities & Hc & Hu & Ha).
    destruct (Export_eq json_Marshal connector config channels users
                abilities r Hc Hu Ha) as (res' & Heq & Hres').
    rewrite Heq in Hres. cbn [fst] in Hres. injection Hres as <-.
    subst res'. unfold keysHaveMasters, extendWith in *.
    cbn [ExportResult.Data Data.Keys Data.Masters].
    apply Forall_app. split.
    - eapply Forall_impl; [exact Hr|].
      intros k (m & Hm & Hn). exists m. split; [|exact Hn].
      apply in_or_app. now left.
    - apply List.Forall_forall. intros k Hk.
      apply in_concat in Hk as (ks & Hks & Hk).
      apply in_map_iff in Hks as (user & <- & Huser).
      exists (userToMaster user). split.
      + apply in_or_app. right. now apply in_map.
      + now rewrite (userKeys_MasterRef _ _ _ Hk). }
  split; [exact Hinv|].
  intros now res Hres. apply (Hinv (schema.NewExportResult now)).
  - constructor.
  - exact Hres.
Qed.

(** X15: a phase that is switched off asks the connector nothing: without
    tokens the pass is the same whatever the two queries on users and
    tokens would answer, and its result has no Master and no Key; without
    abilities it is the same whatever the query on abilities would answer,
    and its result has no Binding. *)
Theorem X15_a_phase_switched_off_asks_nothing
  (json_Marshal : Channel.t -> option string)
  (connector : Connector.t) (config : ExporterConfig.t) :
  (ExporterConfig.IncludeTokens config = false ->
   (forall users tokens r,
       Export json_Marshal
         (Connector.mk (Connector.GetAllChannels connector) users tokens
            (Connector.GetAllAbilities connector)) config r
       = Export json_Marshal connector config r)
   /\ forall now res,
       runExport json_Marshal connector config now = Ok res ->
       Data.Masters (ExportResult.Data res) = []
       /\ Data.Keys (ExportResult.Data res) = [])
  /\ (ExporterConfig.IncludeAbilities config = false ->
      (forall abilities r,
          Export json_Marshal
            (Connector.mk (Connector.GetAllChannels connector)
               (Connector.GetUsersWithTokens connector)
               (Connector.GetTokensByUserID connector) abilities) config r
          = Export json_Marshal connector config r)
      /\ forall now res,
          runExport json_Marshal connector config now = Ok res ->
          Data.Bindings (ExportResult.Data res) = []).
Proof.
  split; intros Hoff; split.
  - intros users tokens r. unfold Export, exportChannels, exportAbilities.
    cbn [Connector.GetAllChannels Connector.GetAllAbilities].
    now rewrite Hoff.
  - intros now res Hres. unfold runExport in Hres.
    destruct (Export_Ok_inv _ _ _ _ _ Hres)
      as (channels & users & abilities & Hc & Hu & Ha).
    destruct (Export_eq json_Marshal connector config channels users
                abilities (schema.NewExportResult now) Hc Hu Ha)
      as (res' & Heq & Hres').
    rewrite Heq in Hres. cbn [fst] in Hres. injection Hres as <-.
    rewrite Hoff in Hu. subst users res'. split; reflexivity.
  - intros abilities r.
    unfold Export, exportChannels, exportUsersAndTokens.
    cbn [Connector.GetAllChannels Connector.GetUsersWithTokens].
    rewrite Hoff.
    assert (forall users mm,
               usersLoop
                 (Connector.mk (Connector.GetAllChannels connector)
                    (Connector.GetUsersWithTokens connector)
                    (Connector.GetTokensByUserID connector) abilities)
                 users mm
               = usersLoop connector users mm) as Hloop.
    { induction users as [|user rest IH]; intros mm; [reflexivity|].
      cbn [usersLoop Connector.GetTokensByUserID].
      destruct (Connector.GetTokensByUserID connector (User.ID user));
        now rewrite IH. }
    destruct (Connector.GetUsersWithTokens connector);
      [now rewrite Hloop|reflexivity].
  - intros now res Hres. unfold runExport in Hres.
    destruct (Export_Ok_inv _ _ _ _ _ Hres)
      as (channels & users & abilities & Hc & Hu & Ha).
    destruct (Export_eq json_Marshal connector config channels users
                abilities (schema.NewExportResult now) Hc Hu Ha)
      as (res' & Heq & Hres').
    rewrite Heq in Hres. cbn [fst] in Hres. injection Hres as <-.
    rewrite Hoff in Ha. subst abilities res'. reflexivity.
Qed.

Lemma length_channelProviders (json_Marshal : Channel.t -> option string)
  (ch : Channel.t) :
  length (channelProviders json_Marshal ch)
  = length (parseKeys (Channel.Key ch)).
Proof. unfold channelProviders. apply channelToProviders_length. Qed.

(** X16: the summary of the result of a pass in which every fetch made
    succeeds counts one Provider per secret of every channel, one Master
    per user and one Binding per ability (none for a phase that does not
    run), and one Key per token of every user whose tokens are fetched. *)
Theorem X16_summary_counts
  (json_Marshal : Channel.t -> option string)
  (connector : Connector.t) (config : ExporterConfig.t)
  (channels : list Channel.t) (users : list User.t)
  (abilities : list Ability.t) (now : Time) :
  Connector.GetAllChannels connector = Ok channels ->
  (if ExporterConfig.IncludeTokens config
   then Connector.GetUsersWithTokens connector = Ok users
   else users = []) ->
  (if ExporterConfig.IncludeAbilities config
   then Connector.GetAllAbilities connector = Ok abilities
   else abilities = []) ->
  exists res,
    runExport json_Marshal connector config now = Ok res
    /\ Summary.Providers (GetSummary res)
       = Z.of_nat
           (list_sum
              (map (fun ch => length (parseKeys (Channel.Key ch))) channels))
    /\ Summary.Masters (GetSummary res) = Z.of_nat (length users)
    /\ Summary.Keys (GetSummary res)
       = Z.of_nat
           (list_sum (map (fun u => length (userKeys connector u)) users))
    /\ Summary.Bindings (GetSummary res) = Z.of_nat (length abilities)
    /\ Summary.Warnings (GetSummary res)
       = Z.of_nat
           (list_sum (map (fun ch => length (channelWarnings ch)) channels)
            + list_sum
                (map (fun u => length (userWarnings connector u)) users)).
Proof.
  intros Hc Hu Ha.
  destruct (Export_eq json_Marshal connector config channels users
              abilities (schema.NewExportResult now) Hc Hu Ha)
    as (res & Heq & Hres).
  exists res. unfold runExport. rewrite Heq. split; [reflexivity|].
  subst res. unfold GetSummary, extendWith, schema.NewExportResult.
  cbn [ExportResult.Data ExportResult.Warnings Data.Providers Data.Masters
       Data.Keys Data.Bindings Summary.Providers Summary.Masters
       Summary.Keys Summary.Bindings Summary.Warnings app].
  rewrite !length_app, !length_concat, !length_map, !map_map.
  repeat split.
  f_equal. f_equal. apply map_ext. intros ch. apply length_channelProviders.
Qed.

(** *** The failures of the fetches *)

Lemma users_around_a_failure (connector : Connector.t)
  (before after : list User.t) (user : User.t) (err : error) :
  Connector.GetTokensByUserID connector (User.ID user) = Err err ->
  map userToMaster (before ++ user :: after)
  = (map userToMaster before
     ++ userToMaster user :: map userToMaster after)%list
  /\ concat (map (userKeys connector) (before ++ user :: after))
     = (concat (map (userKeys connector) before)
        ++ concat (map (userKeys connector) after))%list
  /\ concat (map (userWarnings connector) (before ++ user :: after))
     = (concat (map (userWarnings connector) before)
        ++ tokensWarning user err
           :: concat (map (userWarnings connector) after))%list.
Proof.
  intros He.
  assert (userKeys connector user = []) as Hk
      by (unfold userKeys; now rewrite He).
  assert (userWarnings connector user = [tokensWarning user err]) as Hw
      by (unfold userWarnings; now rewrite He).
  rewrite !map_app, !concat_app. cbn [map concat].
  rewrite Hk, Hw. cbn [app]. repeat split.
Qed.

(** C3: [Export] returns an error, and no result, when the channels cannot
    be fetched, when the users cannot be fetched (tokens being included) and
    when the abilities cannot be fetched (abilities being included); the
    error wraps the error of the connector and its message starts with the
    phase. A primary fetch is made only in a phase that runs; whichever of
    the fetches made fails, [Export] returns an error, and when the three
    succeed it returns its result, whatever the fetches of tokens do.
    When the users are fetched and the tokens of one of them cannot be,
    [exportUsersAndTokens] reports no error and leaves the result it was
    given with, appended to it: the Masters of all the users, in order,
    that of the user whose tokens failed among them; the Keys of the users
    before and of the users after that user, and none for that user; and,
    between the warnings of the users before and after, the warning
    "Failed to get tokens for user '<name>' (ID=<id>): <error>". [Export]
    then returns that result, with the Providers and warnings of the
    channels before and the Bindings of the abilities after. For a user
    whose tokens are fetched the Keys are those of the tokens, with the
    username as master_ref, and there is no warning. *)
Theorem C3_fetch_failures (json_Marshal : Channel.t -> option string)
  (connector : Connector.t) (config : ExporterConfig.t) :
  (forall err r,
      Connector.GetAllChannels connector = Err err ->
      fst (Export json_Marshal connector config r)
      = Err (wrapError ("failed to export channels: " ++ Error err) err))
  /\ (forall channels err r,
      Connector.GetAllChannels connector = Ok channels ->
      ExporterConfig.IncludeTokens config = true ->
      Connector.GetUsersWithTokens connector = Err err ->
      fst (Export json_Marshal connector config r)
      = Err (wrapError
               ("failed to export users/tokens: failed to get users: "
                ++ Error err)
               (wrapError ("failed to get users: " ++ Error err) err)))
  /\ (forall channels err r,
      Connector.GetAllChannels connector = Ok channels ->
      (ExporterConfig.IncludeTokens config = true ->
       exists users, Connector.GetUsersWithTokens connector = Ok users) ->
      ExporterConfig.IncludeAbilities config = true ->
      Connector.GetAllAbilities connector = Err err ->
      fst (Export json_Marshal connector config r)
      = Err (wrapError ("failed to export abilities: " ++ Error err) err))
  /\ (forall r,
      (exists err, Connector.GetAllChannels connector = Err err)
      \/ (ExporterConfig.IncludeTokens config = true
          /\ exists err, Connector.GetUsersWithTokens connector = Err err)
      \/ (ExporterConfig.IncludeAbilities config = true
          /\ exists err, Connector.GetAllAbilities connector = Err err) ->
      exists err, fst (Export json_Marshal connector config r) = Err err)
  /\ (forall channels users abilities r,
      Connector.GetAllChannels connector = Ok channels ->
      Connector.GetUsersWithTokens connector = Ok users ->
      Connector.GetAllAbilities connector = Ok abilities ->
      exists res, Export json_Marshal connector config r = (Ok res, res))
  /\ (forall before user after err r,
      Connector.GetUsersWithTokens connector = Ok (before ++ user :: after)%list ->
      Connector.GetTokensByUserID connector (User.ID user) = Err err ->
      exportUsersAndTokens connector r
      = (None,
         extendWith r []
           (map userToMaster before
            ++ userToMaster user :: map userToMaster after)%list
           (concat (map (userKeys connector) before)
            ++ concat (map (userKeys connector) after))%list
           []
           (concat (map (userWarnings connector) before)
            ++ tokensWarning user err
               :: concat (map (userWarnings connector) after))%list))
  /\ (forall channels before user after abilities err r,
      Connector.GetAllChannels connector = Ok channels ->
      ExporterConfig.IncludeTokens config = true ->
      Connector.GetUsersWithTokens connector = Ok (before ++ user :: after)%list ->
      Connector.GetTokensByUserID connector (User.ID user) = Err err ->
      (if ExporterConfig.IncludeAbilities config
       then Connector.GetAllAbilities connector = Ok abilities
       else abilities = []) ->
      exists res,
        Export json_Marshal connector config r = (Ok res, res)
        /\ res
           = extendWith r
               (concat (map (channelProviders json_Marshal) channels))
               (map userToMaster before
                ++ userToMaster user :: map userToMaster after)%list
               (concat (map (userKeys connector) before)
                ++ concat (map (userKeys connector) after))%list
               (map abilityToBinding abilities)
               (concat (map channelWarnings channels)
                ++ concat (map (userWarnings connector) before)
                ++ tokensWarning user err
                   :: concat (map (userWarnings connector) after))%list)
  /\ (forall user err,
      tokensWarning user err
      = "Failed to get tokens for user '" ++ User.Username user ++ "' (ID="
        ++ itoa (User.ID user) ++ "): " ++ Error err)
  /\ (forall user tokens,
      Connector.GetTokensByUserID connector (User.ID user) = Ok tokens ->
      userKeys connector user
      = map (fun token => tokenToKey token (User.Username user)) tokens
      /\ userWarnings connector user = []).
Proof.
  split; [|split; [|split; [|split; [|split; [|split; [|split; [|split]]]]]]].
  - intros err r Hc. unfold Export, bind, exportChannels. rewrite Hc.
    reflexivity.
  - intros channels err r Hc Ht Hu.
    unfold Export. unfold bind at 1.
    rewrite (exportChannels_eq _ _ _ _ Hc).
    unfold bind. rewrite Ht. unfold exportUsersAndTokens. rewrite Hu.
    reflexivity.
  - intros channels err r Hc Hu Hi Ha.
    unfold Export. unfold bind at 1.
    rewrite (exportChannels_eq _ _ _ _ Hc).
    unfold bind at 1.
    set (r1 := extendWith r _ [] [] [] _).
    assert (fst ((if ExporterConfig.IncludeTokens config
                  then exportUsersAndTokens connector else ret None) r1)
            = None) as H2.
    { destruct (ExporterConfig.IncludeTokens config); [|reflexivity].
      destruct (Hu eq_refl) as [users Hus].
      apply (exportUsersAndTokens_eq connector users r1 Hus). }
    destruct ((if ExporterConfig.IncludeTokens config
               then exportUsersAndTokens connector else ret None) r1)
      as [a r2].
    cbn [fst] in H2. subst a.
    unfold bind. rewrite Hi. unfold exportAbilities. rewrite Ha.
    reflexivity.
  - intros r Hfail. apply Export_Err. exact Hfail.
  - intros channels users abilities r Hc Hu Ha.
    destruct (Export_eq json_Marshal connector config channels
                (if ExporterConfig.IncludeTokens config then users else [])
                (if ExporterConfig.IncludeAbilities config
                 then abilities else []) r Hc)
      as (res & Hres & _).
    + now destruct (ExporterConfig.IncludeTokens config).
    + now destruct (ExporterConfig.IncludeAbilities config).
    + now exists res.
  - intros before user after err r Hu He.
    destruct (exportUsersAndTokens_eq connector _ r Hu) as [H1 H2].
    destruct (users_around_a_failure connector before after user err He)
      as (Hm & Hk & Hw).
    rewrite (surjective_pairing (exportUsersAndTokens connector r)).
    now rewrite H1, H2, Hm, Hk, Hw.
  - intros channels before user after abilities err r Hc Ht Hu He Ha.
    destruct (Export_eq json_Marshal connector config channels
                (before ++ user :: after)%list abilities r Hc)
      as (res & Hres & Heq).
    + now rewrite Ht.
    + exact Ha.
    + exists res. split; [exact Hres|].
      destruct (users_around_a_failure connector before after user err He)
        as (Hm & Hk & Hw).
      now rewrite Heq, Hm, Hk, Hw.
  - intros user err. reflexivity.
  - intros user tokens Hok. unfold userKeys, userWarnings.
    now rewrite Hok.
Qed.

(** *** The fields of a Key *)

Lemma tokenToKey_lists (token : Token.t) (masterRef : string) :
  Key.ModelLimits (tokenToKey token masterRef)
  = (if Token.ModelLimitsEnabled token
     then parseModels (Token.ModelLimits token) else [])
  /\ Key.AllowIPs (tokenToKey token masterRef)
     = match Token.AllowIPs token with
       | Some ips =>
         if nonEmpty ips
         then map strings.TrimSpace (strings.Split ips comma) else []
       | None => []
       end
  /\ Key.Status (tokenToKey token masterRef)
     = MapTokenStatus (Token.Status token).
Proof.
  unfold tokenToKey.
  destruct (Token.ModelLimitsEnabled token);
  destruct (nonEmpty (Token.ModelLimits token)) eqn:Em;
  destruct ((0 <? Token.ExpiredTime token)
            && negb (Token.ExpiredTime token =? -1));
  destruct (Token.AllowIPs token) as [ips|];
  try destruct (nonEmpty ips);
  destruct (Token.UnlimitedQuota token);
  cbn [andb]; repeat split;
  cbn [Key.ModelLimits Key.set_ModelLimits Key.set_ExpiresAt
       Key.set_AllowIPs Key.set_QuotaLimit Key.set_QuotaUsed
       Key.MasterRef Key.OriginalToken Key.Group Key.Status Key.Scopes
       Key.Namespaces Key.ModelLimitsEnabled Key.ExpiresAt Key.AllowIPs
       Key.QuotaLimit Key.QuotaUsed Key.UnlimitedQuota Key.OriginalID
       Key.TokenPlaintextAvailable];
  try reflexivity;
  (apply Bool.negb_false_iff, String.eqb_eq in Em; rewrite Em; reflexivity).
Qed.

(** X17: a Key has an expiry exactly when the expired_time of its token is
    positive, and it is that many seconds after the epoch; every other
    value, the negative ones beside -1 included, gives none, although
    [TimestampToTime] alone turns every timestamp but -1 and 0 into an
    instant. *)
Theorem X17_expiry_only_when_positive (token : Token.t)
  (masterRef : string) :
  Key.ExpiresAt (tokenToKey token masterRef)
  = (if 0 <? Token.ExpiredTime token
     then Some (Unix (Token.ExpiredTime token) 0) else None)
  /\ forall ts, ts <> -1 -> ts <> 0 -> TimestampToTime ts = Some (Unix ts 0).
Proof.
  split.
  - rewrite tokenToKey_ExpiresAt. unfold TimestampToTime.
    destruct (0 <? Token.ExpiredTime token) eqn:E; [|reflexivity].
    assert ((Token.ExpiredTime token =? -1) = false) as -> by lia.
    assert ((Token.ExpiredTime token =? 0) = false) as -> by lia.
    reflexivity.
  - intros ts H1 H0. unfold TimestampToTime.
    assert ((ts =? -1) = false) as -> by lia.
    now assert ((ts =? 0) = false) as -> by lia.
Qed.

Lemma Split_length (s : string) (sep : ascii) :
  length (strings.Split s sep) = S (countByte sep s).
Proof.
  induction s as [|c s IH]; [reflexivity|].
  cbn [strings.Split countByte]. destruct (Ascii.eqb c sep).
  - cbn [length]. now rewrite IH.
  - destruct (strings.Split s sep) as [|h t]; cbn [length] in *; lia.
Qed.

(** X18: the allow_ips of a Key has one entry per comma-separated part of
    the field of the token, empty parts included (one more entry than the
    field has commas), and is empty when the field is absent or empty; the
    model_limits of a Key has the non-empty names of the field only, and
    is empty when the limits are not enabled, whatever the field holds. *)
Theorem X18_lists_of_a_key (token : Token.t) (masterRef : string) :
  let key := tokenToKey token masterRef in
  (forall ips, Token.AllowIPs token = Some ips -> ips <> "" ->
     length (Key.AllowIPs key) = S (countByte comma ips))
  /\ (Token.AllowIPs token = None \/ Token.AllowIPs token = Some "" ->
      Key.AllowIPs key = [])
  /\ (Token.ModelLimitsEnabled token = true ->
      Key.ModelLimits key = fieldParts (Token.ModelLimits token) comma)
  /\ (Token.ModelLimitsEnabled token = false -> Key.ModelLimits key = [])
  /\ Forall (fun m => m <> "") (Key.ModelLimits key).
Proof.
  cbv zeta.
  destruct (tokenToKey_lists token masterRef) as (Hm & Hi & _).
  rewrite Hm, Hi. split; [|split; [|split; [|split]]].
  - intros ips -> Hne. apply nonEmpty_true in Hne as ->.
    now rewrite length_map, Split_length.
  - intros [-> | ->]; reflexivity.
  - intros ->. apply parseModels_eq.
  - now intros ->.
  - destruct (Token.ModelLimitsEnabled token); [|constructor].
    rewrite parseModels_eq. apply trimmed_parts_nonEmpty.
Qed.

(** *** The states *)

Lemma MapTokenStatus_cases (s : Z) :
  (s = 1 /\ MapTokenStatus s = "active")
  \/ (s = 3 /\ MapTokenStatus s = "expired")
  \/ (s = 4 /\ MapTokenStatus s = "exhausted")
  \/ (s <> 1 /\ s <> 3 /\ s <> 4 /\ MapTokenStatus s = "disabled").
Proof.
  unfold MapTokenStatus, TokenStatus_ToEzAPIStatus, TokenStatusEnabled,
    TokenStatusDisabled, TokenStatusExpired, TokenStatusExhausted.
  destruct (s =? 1) eqn:E1; [left; split; [lia|reflexivity]|].
  destruct (s =? 2) eqn:E2; [right; right; right; repeat split; lia|].
  destruct (s =? 3) eqn:E3; [right; left; split; [lia|reflexivity]|].
  destruct (s =? 4) eqn:E4; [right; right; left; split; [lia|reflexivity]|].
  right; right; right. repeat split; lia.
Qed.

(** X19: the status of a Key is "active" exactly for a token that
    [IsActive] (state 1), "expired" exactly for state 3, "exhausted" exactly
    for state 4, and "disabled" for every other state, known or not. *)
Theorem X19_key_status (token : Token.t) (masterRef : string) :
  let status := Key.Status (tokenToKey token masterRef) in
  (status = "active" <-> TokenStatus_IsActive (Token.Status token) = true)
  /\ (status = "expired" <-> Token.Status token = 3)
  /\ (status = "exhausted" <-> Token.Status token = 4)
  /\ (status = "disabled" <->
      Token.Status token <> 1 /\ Token.Status token <> 3
      /\ Token.Status token <> 4).
Proof.
  cbv zeta. destruct (tokenToKey_lists token masterRef) as (_ & _ & ->).
  unfold TokenStatus_IsActive, TokenStatusEnabled.
  destruct (MapTokenStatus_cases (Token.Status token))
    as [[Hs ->]|[[Hs ->]|[[Hs ->]|(H1 & H3 & H4 & ->)]]];
    repeat split; intros; try discriminate; try lia;
    try match goal with H : _ /\ _ |- _ => destruct H as (? & ? & ?) end;
    try lia.
Qed.

(** X20: the status of every Provider of a channel is "active" exactly for
    a channel that [IsActive] (state 1) and "disabled" otherwise; the
    status of the Master of a user is "active" exactly for a user in state
    1 and "suspended" otherwise. *)
Theorem X20_provider_and_master_status
  (json_Marshal : Channel.t -> option string) (ch : Channel.t)
  (r : ExportResult.t) (user : User.t) :
  Forall (fun p =>
            Provider.Status p
            = if ChannelStatus_IsActive (Channel.Status ch)
              then "active" else "disabled")
    (fst (channelToProviders json_Marshal ch r))
  /\ Master.Status (userToMaster user)
     = if User.Status user =? 1 then "active" else "suspended".
Proof.
  split.
  - apply Forall_lookup_2. intros i p Hp.
    destruct (channelToProviders_lookup_inv _ _ _ _ _ Hp)
      as (key & _ & _ & _ & _ & _ & _ & -> & _).
    unfold MapChannelStatus, ChannelStatus_ToEzAPIStatus,
      ChannelStatus_IsActive.
    destruct (Channel.Status ch =? ChannelStatusEnabled); [reflexivity|].
    now destruct ((Channel.Status ch =? ChannelStatusManuallyDisabled)
                  || (Channel.Status ch =? ChannelStatusAutoDisabled)
                  || (Channel.Status ch =? ChannelStatusUnknown)).
  - cbn [userToMaster Master.Status].
    unfold MapUserStatus, UserStatus_ToEzAPIStatus, UserStatusEnabled.
    destruct (User.Status user =? 1); [reflexivity|].
    now destruct (User.Status user =? UserStatusDisabled).
Qed.

(** *** The tables of channel types *)

Lemma channelTypeMapping_range (t : Z) (ty : string) :
  channelTypeMapping !! t = Some ty -> 0 <= t <= 56.
Proof.
  intros H. apply elem_of_list_to_map_2, list_elem_of_In in H.
  cbn [In] in H.
  repeat (destruct H as [H|H]; [injection H as <- _; vm_compute;
                                split; discriminate|]).
  destruct H.
Qed.

Lemma channelTypeDisplayNames_range (t : Z) (name : string) :
  channelTypeDisplayNames !! t = Some name -> 0 <= t <= 56.
Proof.
  intros H. apply elem_of_list_to_map_2, list_elem_of_In in H.
  cbn [In] in H.
  repeat (destruct H as [H|H]; [injection H as <- _; vm_compute;
                                split; discriminate|]).
  destruct H.
Qed.

Lemma tables_on_range (n : nat) :
  (n < 57)%nat ->
  snd (ToProviderType (Z.of_nat n)) = knownKind (Z.of_nat n)
  /\ (channelTypeDisplayNames !! Z.of_nat n = None
      <-> channelTypeMapping !! Z.of_nat n = None)
  /\ fst (ToProviderType (Z.of_nat n)) <> "".
Proof.
  intros Hn.
  do 57 (destruct n as [|n];
         [vm_compute; split; [reflexivity|split; [split; congruence|
                                                  discriminate]]|]).
  lia.
Qed.

(** X21: the table of provider types and the table of display names know
    the same kinds, which are 0 to 56 without 28, 29, 30 and 32; for these
    and only these the mapper answers true, and the provider type it
    returns is never empty. *)
Theorem X21_known_kinds (t : Z) :
  snd (MapChannelType t) = knownKind t
  /\ (channelTypeDisplayNames !! t = None <-> channelTypeMapping !! t = None)
  /\ (DisplayName t <> "Unknown" -> snd (MapChannelType t) = true)
  /\ fst (MapChannelType t) <> "".
Proof.
  unfold MapChannelType.
  destruct (decide (0 <= t <= 56)) as [Hin|Hout].
  - destruct (tables_on_range (Z.to_nat t)) as (H1 & H2 & H3); [lia|].
    rewrite Z2Nat.id in H1, H2, H3 by lia.
    split; [exact H1|]. split; [exact H2|]. split; [|exact H3].
    unfold DisplayName, ToProviderType in *.
    destruct (channelTypeDisplayNames !! t) eqn:Ed;
      destruct (channelTypeMapping !! t) eqn:Em; try reflexivity;
      try congruence.
    destruct H2 as [_ H2]. now specialize (H2 eq_refl).
  - assert (channelTypeMapping !! t = None) as Hm.
    { destruct (channelTypeMapping !! t) eqn:E; [|reflexivity].
      apply channelTypeMapping_range in E. contradiction. }
    assert (channelTypeDisplayNames !! t = None) as Hd.
    { destruct (channelTypeDisplayNames !! t) eqn:E; [|reflexivity].
      apply channelTypeDisplayNames_range in E. contradiction. }
    unfold DisplayName, ToProviderType. rewrite Hm, Hd. cbn [fst snd].
    split.
    { unfold knownKind. symmetry.
      destruct ((0 <=? t) && (t <=? 56)) eqn:E; [lia|reflexivity]. }
    split; [tauto|]. split; [congruence|discriminate].
Qed.

(** *** [formatBytes] *)

Lemma scaleLoop_spec (bytes : Z) (Hb : bytes < two63) (fuel : nat) :
  forall n exp,
    (1 <= fuel)%nat -> 0 <= exp ->
    1 <= n < unit_ ^ Z.of_nat fuel ->
    n = bytes / unit_ ^ (exp + 1) ->
    exists e,
      exp <= e
      /\ scaleLoop fuel n (unit_ ^ (exp + 1)) exp = Some (unit_ ^ (e + 1), e)
      /\ unit_ ^ (e + 1) <= bytes < unit_ ^ (e + 2).
Proof.
  unfold unit_.
  induction fuel as [|fuel IH]; intros n exp Hf He Hn Hdiv; [lia|].
  assert (0 < 1024 ^ (exp + 1)) as Hpos by (apply Z.pow_pos_nonneg; lia).
  assert (1024 ^ (exp + 2) = 1024 ^ (exp + 1) * 1024) as Hpow.
  { replace (exp + 2) with (exp + 1 + 1) by lia.
    rewrite Z.pow_add_r by lia. reflexivity. }
  assert (1024 ^ (exp + 1) * n <= bytes
          < 1024 ^ (exp + 1) * n + 1024 ^ (exp + 1)) as Hbytes.
  { subst n. pose proof (Z.mul_div_le bytes _ Hpos).
    pose proof (Z.mul_succ_div_gt bytes _ Hpos). lia. }
  cbn [scaleLoop]. unfold unit_.
  destruct (1024 <=? n) eqn:E.
  - assert (1024 ^ (exp + 2) <= bytes) as Hle by nia.
    assert (int64_wrap (1024 ^ (exp + 1) * 1024) = 1024 ^ (exp + 1 + 1))
      as ->.
    { unfold int64_wrap. rewrite <- Hpow.
      replace (exp + 1 + 1) with (exp + 2) by lia.
      apply int_of_uint_small. lia. }
    assert (Z.quot n 1024 = n / 1024) as -> by (apply Z.quot_div_nonneg; lia).
    destruct (IH (n / 1024) (exp + 1)) as (e & Hee & Hloop & Hrange).
    + destruct fuel; [|lia].
      change (Z.of_nat 1) with 1 in Hn. lia.
    + lia.
    + split; [apply Z.div_le_lower_bound; lia|].
      apply Z.div_lt_upper_bound; [lia|].
      replace (Z.of_nat (S fuel)) with (Z.of_nat fuel + 1) in Hn by lia.
      rewrite Z.pow_add_r in Hn by lia. lia.
    + subst n. rewrite Z.div_div by lia.
      replace (exp + 1 + 1) with (exp + 2) by lia. now rewrite Hpow.
    + exists e. split; [lia|]. split; [exact Hloop|exact Hrange].
  - exists exp. split; [lia|]. split; [reflexivity|].
    rewrite Hpow. nia.
Qed.

(** X22: on every [int64], [formatBytes] returns: it never indexes
    "KMGTPE" out of range and its divisor never overflows. Below 1024 the
    text is the number followed by " B"; from 1024 on the divisor is the
    largest power of 1024 that is not above the number, so that the
    quotient printed lies in [1, 1024), and the unit is the letter of that
    power, K for 1024 up to E for 1024^6. *)
Theorem X22_formatBytes_stays_in_range (bytes : Z) :
  - two63 <= bytes < two63 ->
  (bytes < 1024 -> formatBytes bytes = Returns (Plain (itoa bytes ++ " B")))
  /\ (1024 <= bytes ->
      exists (e : Z) (unitChar : ascii),
        0 <= e <= 5
        /\ String.get (Z.to_nat e) "KMGTPE" = Some unitChar
        /\ formatBytes bytes = Returns (Scaled bytes (1024 ^ (e + 1)) unitChar)
        /\ 1024 ^ (e + 1) <= bytes < 1024 ^ (e + 2)).
Proof.
  intros Hb. unfold formatBytes, formatBytes_fuel. split.
  - intros Hs. unfold unit_.
    now assert ((bytes <? 1024) = true) as -> by lia.
  - intros Hl. unfold unit_ at 1.
    assert ((bytes <? 1024) = false) as -> by lia.
    assert (Z.quot bytes unit_ = bytes / unit_ ^ (0 + 1)) as Hq.
    { unfold unit_. rewrite Z.quot_div_nonneg by lia. reflexivity. }
    destruct (scaleLoop_spec bytes (proj2 Hb) 64 (Z.quot bytes unit_) 0)
      as (e & He & Hloop & Hrange); [lia|lia| |exact Hq|].
    { rewrite Hq. unfold unit_. change (1024 ^ (0 + 1)) with 1024.
      split; [apply Z.div_le_lower_bound; lia|].
      apply Z.div_lt_upper_bound; [lia|].
      unfold two63 in Hb.
      assert (2 ^ 63 < 1024 * 1024 ^ Z.of_nat 64) by (vm_compute; reflexivity).
      lia. }
    change (unit_ ^ (0 + 1)) with unit_ in Hloop. rewrite Hloop.
    unfold unit_ in Hrange |- *.
    assert (e <= 5) as He5.
    { destruct (Z_le_gt_dec e 5) as [H|H]; [exact H|exfalso].
      assert (1024 ^ 7 <= 1024 ^ (e + 1))
        by (apply Z.pow_le_mono_r; lia).
      assert (two63 < 1024 ^ 7) by (vm_compute; reflexivity). lia. }
    assert ((0 <=? e) = true) as -> by lia.
    assert (e = 0 \/ e = 1 \/ e = 2 \/ e = 3 \/ e = 4 \/ e = 5)
      as [->|[->|[->|[->|[->| ->]]]]] by lia;
      match type of Hrange with
      | 1024 ^ (?k + 1) <= _ < _ => exists k
      end;
      eexists; (split; [lia|]); (split; [reflexivity|]);
      (split; [reflexivity|exact Hrange]).
Qed.

(** *** Weight and priority, bounds *)

(** X23: the priority of a Provider is never negative, and its weight is at
    least 1 unless the weight field of the channel is 2^63 or more. *)
Theorem X23_weight_at_least_one
  (json_Marshal : Channel.t -> option string) (ch : Channel.t)
  (r : ExportResult.t) (i : nat) (p : Provider.t) :
  fst (channelToProviders json_Marshal ch r) !! i = Some p ->
  0 <= Provider.Priority p
  /\ (deref (Channel.Weight ch) < two63 -> 1 <= Provider.Weight p).
Proof.
  intros Hp.
  destruct (channelToProviders_lookup _ _ _ _ _ Hp)
    as (key & _ & _ & _ & _ & _ & _ & _ & -> & ->).
  unfold int_of_int64. split.
  - destruct (Channel.Priority ch) as [pr|]; cbn [isPositive deref]; [|lia].
    destruct (0 <? pr) eqn:E; lia.
  - intros Hw.
    destruct (Channel.Weight ch) as [w|]; cbn [isPositive deref] in *.
    + destruct (0 <? w) eqn:E.
      * rewrite int_of_uint_small; lia.
      * destruct (Channel.Priority ch) as [pr|]; cbn [isPositive deref];
          [|lia].
        destruct (0 <? pr) eqn:E'; lia.
    + destruct (Channel.Priority ch) as [pr|]; cbn [isPositive deref]; [|lia].
      destruct (0 <? pr) eqn:E'; lia.
Qed.

(** *** The further properties on the sample data *)

Lemma C3_fetch_failures_witness :
  fst (Export noBackup noChannels withEverything emptyResult)
  = Err (wrapError "failed to export channels: connection refused" dbDown)
  /\ fst (Export noBackup noUsers withEverything emptyResult)
     = Err (wrapError
              "failed to export users/tokens: failed to get users: connection refused"
              (wrapError "failed to get users: connection refused" dbDown))
  /\ fst (Export noBackup noAbilities withEverything emptyResult)
     = Err (wrapError "failed to export abilities: connection refused" dbDown)
  /\ (exists res,
        exportUsersAndTokens bobTokensDown earlierResult = (None, res)
        /\ map Master.Name (Data.Masters (ExportResult.Data res))
           = ["root"; "alice"; "bob"; "carol"]
        /\ map (fun k => (Key.MasterRef k, Key.OriginalToken k))
             (Data.Keys (ExportResult.Data res))
           = [("root", "tok-9"); ("alice", "tok-1"); ("carol", "tok-5")]
        /\ ExportResult.Warnings res
           = ["an earlier warning";
              "Failed to get tokens for user 'bob' (ID=3): connection refused"])
  /\ (exists res,
        Export noBackup bobTokensDown withEverything earlierResult
        = (Ok res, res)
        /\ map Provider.Name (Data.Providers (ExportResult.Data res))
           = ["acme"]
        /\ map Master.Name (Data.Masters (ExportResult.Data res))
           = ["root"; "alice"; "bob"; "carol"]
        /\ map (fun k => (Key.MasterRef k, Key.OriginalToken k))
             (Data.Keys (ExportResult.Data res))
           = [("root", "tok-9"); ("alice", "tok-1"); ("carol", "tok-5")]
        /\ map Binding.Model (Data.Bindings (ExportResult.Data res))
           = ["gpt-4"]
        /\ ExportResult.Warnings res
           = ["an earlier warning";
              "Channel 'acme' (ID=7) has priority=3 which is not supported in EZ-API";
              "Failed to get tokens for user 'bob' (ID=3): connection refused"]).
Proof.
  split; [|split; [|split; [|split]]].
  - apply (proj1 (C3_fetch_failures noBackup noChannels withEverything)
             dbDown emptyResult).
    reflexivity.
  - destruct (C3_fetch_failures noBackup noUsers withEverything)
      as (_ & H & _).
    apply (H [] dbDown emptyResult); reflexivity.
  - destruct (C3_fetch_failures noBackup noAbilities withEverything)
      as (_ & _ & H & _).
    apply (H [] dbDown emptyResult); try reflexivity.
    intros _. exists []. reflexivity.
  - destruct (C3_fetch_failures noBackup bobTokensDown withEverything)
      as (_ & _ & _ & _ & _ & H & _).
    eexists. split.
    + apply (H [alice] bob [carol] dbDown earlierResult); reflexivity.
    + repeat split; vm_compute; reflexivity.
  - destruct (C3_fetch_failures noBackup bobTokensDown withEverything)
      as (_ & _ & _ & _ & _ & _ & H & _).
    destruct (H [oneKeyChannel] [alice] bob [carol] [gptAbility] dbDown
                earlierResult)
      as (res & Hres & Heq); try reflexivity.
    exists res. split; [exact Hres|].
    rewrite Heq. repeat split; vm_compute; reflexivity.
Defined.

Lemma X4_primary_group_is_first_group_witness :
  exists p,
    fst (channelToProviders noBackup twoKeyChannel emptyResult) !! 1%nat
    = Some p
    /\ Provider.AllGroups p = ["default"]
    /\ In (Provider.PrimaryGroup p) (Provider.AllGroups p).
Proof.
  eexists. split; [vm_compute; reflexivity|].
  match goal with
  | |- Provider.AllGroups ?p = _ /\ _ =>
    destruct (X4_primary_group_is_first_group noBackup twoKeyChannel
                emptyResult 1 p eq_refl) as (Hall & _ & Hin & _)
  end.
  split; [rewrite Hall; reflexivity|exact Hin].
Defined.

Lemma X5_split_providers_share_the_channel_witness :
  exists p q,
    fst (channelToProviders noBackup twoKeyChannel emptyResult) !! 0%nat
    = Some p
    /\ fst (channelToProviders noBackup twoKeyChannel emptyResult) !! 1%nat
       = Some q
    /\ Provider.OriginalID p = 7 /\ sameSource p q.
Proof.
  eexists. eexists.
  split; [vm_compute; reflexivity|].
  split; [vm_compute; reflexivity|].
  match goal with
  | |- Provider.OriginalID ?p = _ /\ sameSource _ ?q =>
    exact (X5_split_providers_share_the_channel noBackup twoKeyChannel
             emptyResult 0 1 p q eq_refl eq_refl)
  end.
Defined.

Lemma X6_names_within_a_channel_differ_witness :
  exists p q,
    fst (channelToProviders noBackup twoKeyChannel emptyResult) !! 0%nat
    = Some p
    /\ fst (channelToProviders noBackup twoKeyChannel emptyResult) !! 1%nat
       = Some q
    /\ Provider.Name p <> Provider.Name q.
Proof.
  eexists. eexists.
  split; [vm_compute; reflexivity|].
  split; [vm_compute; reflexivity|].
  match goal with
  | |- Provider.Name ?p <> Provider.Name ?q =>
    apply (X6_names_within_a_channel_differ noBackup twoKeyChannel
             emptyResult 0 1 p q eq_refl eq_refl)
  end.
  lia.
Defined.

Lemma X10_providers_in_channel_order_witness :
  map Provider.Name
    (Data.Providers
       (ExportResult.Data
          (snd (exportChannels noBackup sampleConnector emptyResult))))
  = ["acme"; "acme-2"; "acme"]
  /\ ExportResult.Warnings
       (snd (exportChannels noBackup sampleConnector emptyResult))
     = ["Channel 'acme' (ID=7) has unknown type 999, mapped to 'custom'"].
Proof.
  rewrite (X10_providers_in_channel_order noBackup sampleConnector
             [twoKeyChannel; unknownKindChannel] emptyResult eq_refl).
  split; reflexivity.
Defined.

Lemma X11_one_master_per_user_witness :
  map Master.Name
    (Data.Masters
       (ExportResult.Data
          (snd (exportUsersAndTokens noTokens emptyResult))))
  = ["bob"]
  /\ Data.Keys
       (ExportResult.Data (snd (exportUsersAndTokens noTokens emptyResult)))
     = []
  /\ map Key.MasterRef
       (Data.Keys
          (ExportResult.Data
             (snd (exportUsersAndTokens sampleConnector emptyResult))))
     = ["bob"; "bob"].
Proof.
  destruct (X11_one_master_per_user noTokens [bob] emptyResult eq_refl)
    as [_ ->].
  destruct (X11_one_master_per_user sampleConnector [bob] emptyResult eq_refl)
    as [_ ->].
  repeat split.
Defined.

Lemma X12_one_binding_per_ability_witness :
  map Binding.Status
    (Data.Bindings
       (ExportResult.Data (snd (exportAbilities sampleConnector emptyResult))))
  = ["active"; "disabled"].
Proof.
  rewrite (X12_one_binding_per_ability sampleConnector
             [gptAbility; offAbility] emptyResult eq_refl).
  reflexivity.
Defined.

Lemma X13_export_is_the_three_phases_in_turn_witness :
  exists res,
    Export noBackup sampleConnector withEverything emptyResult = (Ok res, res)
    /\ length (Data.Providers (ExportResult.Data res)) = 3%nat
    /\ length (Data.Masters (ExportResult.Data res)) = 1%nat
    /\ length (Data.Keys (ExportResult.Data res)) = 2%nat
    /\ length (Data.Bindings (ExportResult.Data res)) = 2%nat.
Proof.
  destruct (X13_export_is_the_three_phases_in_turn noBackup sampleConnector
              withEverything [twoKeyChannel; unknownKindChannel] [bob]
              [gptAbility; offAbility] emptyResult eq_refl eq_refl eq_refl)
    as (res & Heq & Hres).
  exists res. split; [exact Heq|]. rewrite Hres. repeat split.
Defined.

Lemma X16_summary_counts_witness :
  exists res,
    runExport noBackup sampleConnector DefaultExporterConfig (Unix 0 0)
    = Ok res
    /\ Summary.Providers (GetSummary res) = 3
    /\ Summary.Masters (GetSummary res) = 1
    /\ Summary.Keys (GetSummary res) = 2
    /\ Summary.Bindings (GetSummary res) = 0.
Proof.
  destruct (X16_summary_counts noBackup sampleConnector DefaultExporterConfig
              [twoKeyChannel; unknownKindChannel] [bob] [] (Unix 0 0)
              eq_refl eq_refl eq_refl)
    as (res & Heq & Hp & Hm & Hk & Hb & _).
  exists res. split; [exact Heq|].
  rewrite Hp, Hm, Hk, Hb. repeat split.
Defined.

Lemma X22_formatBytes_stays_in_range_witness :
  formatBytes 512 = Returns (Plain "512 B")
  /\ exists e unitChar,
      formatBytes 5368709120 = Returns (Scaled 5368709120 (1024 ^ (e + 1)) unitChar)
      /\ 1024 ^ (e + 1) <= 5368709120 < 1024 ^ (e + 2).
Proof.
  split.
  - apply (proj1 (X22_formatBytes_stays_in_range 512 ltac:(vm_compute; split; [discriminate|reflexivity]))).
    lia.
  - destruct (proj2 (X22_formatBytes_stays_in_range 5368709120
                       ltac:(vm_compute; split; [discriminate|reflexivity])))
      as (e & c & _ & _ & Hf & Hr); [lia|].
    exists e, c. split; [exact Hf|exact Hr].
Defined.

Lemma X23_weight_at_least_one_witness :
  exists p,
    fst (channelToProviders noBackup oneKeyChannel emptyResult) !! 0%nat
    = Some p
    /\ 0 <= Provider.Priority p /\ 1 <= Provider.Weight p.
Proof.
  eexists. split; [vm_compute; reflexivity|].
  match goal with
  | |- 0 <= Provider.Priority ?p /\ _ =>
    destruct (X23_weight_at_least_one noBackup oneKeyChannel emptyResult 0 p
                eq_refl) as [Hpr Hw]
  end.
  split; [exact Hpr|]. apply Hw. vm_compute. reflexivity.
Defined.
